(** * The QUIC session core ([session.go]) as a shallow embedding

    The session of [session.go] is a Go struct that owns a stream table and
    drives a set of collaborators (loss recovery, receive-side ack engine,
    stop-waiting manager, congestion controller, RTT estimator, packer,
    unpacker, connection writer) through interfaces.  Only [session.go] is
    part of the sources; the collaborators are therefore taken as interfaces
    (type classes) over one shared store [W]: in the Go code they alias each
    other (the packer holds the sent-packet handler, the sent-packet handler
    holds the stop-waiting manager, the congestion controller holds a pointer
    to the RTT statistics), so a call on one of them may change what another
    one observes.

    Every method of [Session] becomes a function in the monad [M], which
    threads the session and distinguishes a normal return from a Go panic and
    from a goroutine blocked on a full channel.  Calls that leave the session
    (collaborator methods, callbacks, log lines) are recorded, in program
    order, in the ghost field [trace].

    The methods are modelled as they run on one goroutine, one call after the
    other: [streamsMutex] is therefore left out, the handshake goroutine that
    [NewSession] starts appears only as a possible later call of [Close], and
    what a callback does with the session it is given is a later call as
    well. *)

From Stdlib Require Import ZArith NArith String List.
From stdpp Require Import base gmap list fin_maps.

Local Open Scope N_scope.

(** ** Scalar types of package [protocol]

    [StreamID] (uint32), [PacketNumber], [ByteCount] and [ConnectionID]
    (uint64), [ErrorCode] (uint32) and [PacketNumberLen] (uint8) are unsigned
    machine integers; the session performs no arithmetic on them besides
    [streamID % 2] and comparisons, so they are embedded as [N]. *)

Abbreviation StreamID := N (only parsing).
Abbreviation PacketNumber := N (only parsing).
Abbreviation ByteCount := N (only parsing).
Abbreviation ConnectionID := N (only parsing).
Abbreviation ErrorCode := N (only parsing).
Abbreviation PacketNumberLen := N (only parsing).
Abbreviation Duration := Z (only parsing).
Abbreviation Time := Z (only parsing).
Abbreviation bytes := (list Byte.byte) (only parsing).

(** ** Errors

    Go's [error] is an interface; the sentinel values of [session.go] and of
    package [ackhandler] are compared by identity in [Run], and
    [*protocol.QuicError] is recognised by a type assertion.  [errorString]
    stands for every other error value ([fmt.Errorf], errors of the
    collaborators). *)

Inductive error : Type :=
| errInvalidStreamID
| errReopeningStreamsNotAllowed
| errRstStreamOnInvalidStream
| errWindowUpdateOnInvalidStream
| ErrDuplicateOrOutOfOrderAck
| ErrMapAccess
| QuicError (code : ErrorCode) (message : string)
| errorString (text : string).

#[global] Instance error_eq_dec : EqDecision error.
Proof. solve_decision. Defined.

(** ** Frames (package [frames]) *)

Record StreamFrame : Type := mkStreamFrame {
  sf_StreamID : StreamID;
  sf_FinBit : bool;
  sf_Offset : ByteCount;
  sf_Data : bytes
}.

Record AckFrame : Type := mkAckFrame {
  ack_LargestObserved : PacketNumber;
  ack_DelayTime : Duration
}.

Record ConnectionCloseFrame : Type := mkConnectionCloseFrame {
  ccf_ErrorCode : ErrorCode;
  ccf_ReasonPhrase : string
}.

Record StopWaitingFrame : Type := mkStopWaitingFrame {
  swf_LeastUnacked : PacketNumber
}.

Record RstStreamFrame : Type := mkRstStreamFrame {
  rsf_StreamID : StreamID;
  rsf_ErrorCode : ErrorCode;
  rsf_ByteOffset : ByteCount
}.

Record WindowUpdateFrame : Type := mkWindowUpdateFrame {
  wuf_StreamID : StreamID;
  wuf_ByteOffset : ByteCount
}.

Record BlockedFrame : Type := mkBlockedFrame {
  bf_StreamID : StreamID
}.

(** [frames.Frame] is an interface; [OtherFrame] is any implementation that
    the type switch of [handlePacket] does not list. *)
Inductive Frame : Type :=
| FStream (f : StreamFrame)
| FAck (f : AckFrame)
| FConnectionClose (f : ConnectionCloseFrame)
| FStopWaiting (f : StopWaitingFrame)
| FRstStream (f : RstStreamFrame)
| FWindowUpdate (f : WindowUpdateFrame)
| FBlocked (f : BlockedFrame)
| FPing
| OtherFrame.

(** ** Packets *)

Record PublicHeader : Type := mkPublicHeader {
  ph_Raw : bytes;
  ph_ConnectionID : ConnectionID;
  ph_PacketNumberLen : PacketNumberLen;
  ph_PacketNumber : PacketNumber
}.

Record receivedPacket : Type := mkReceivedPacket {
  remoteAddr : N;
  publicHeader : PublicHeader;
  r : bytes
}.

Record unpackedPacket : Type := mkUnpackedPacket {
  up_entropyBit : bool;
  up_frames : list Frame
}.

Record packedPacket : Type := mkPackedPacket {
  pp_number : PacketNumber;
  pp_raw : bytes;
  pp_frames : list Frame;
  pp_entropyBit : bool
}.

(** [ackhandler.Packet] *)
Record Packet : Type := mkPacket {
  pkt_PacketNumber : PacketNumber;
  pkt_Frames : list Frame;
  pkt_EntropyBit : bool;
  pkt_Length : ByteCount
}.

(** An element of [congestion.PacketVector] *)
Record PacketInfo : Type := mkPacketInfo {
  pi_Number : PacketNumber;
  pi_Length : ByteCount
}.

Record publicResetPacket : Type := mkPublicResetPacket {
  prp_connectionID : ConnectionID;
  prp_rejectedPacketNumber : PacketNumber;
  prp_nonceProof : N
}.

(** ** Log lines ([utils.Debugf], [utils.Infof], [utils.Errorf]) *)

Inductive LogLevel : Type := LevelDebug | LevelInfo | LevelError.

Inductive LogLine : Type :=
| LogReadingPacket (pn : PacketNumber) (size : N) (cid : ConnectionID)
| LogDiscardingPacket
| LogReceivedFrame (f : Frame)
| LogBlockedFrame (cid : ConnectionID) (sid : StreamID)
| LogIgnoringError (e : error)
| LogClosingSession (e : error)
| LogEstimatedRTT (d : Duration)
| LogDequeueingRetransmission (pn : PacketNumber)
| LogSendingPacket (pn : PacketNumber) (len : N)
| LogSentFrame (f : Frame)
| LogSendingPublicReset (cid : ConnectionID) (pn : PacketNumber).

(** ** The collaborators' interfaces

    Each Go interface (or struct of another file) the session calls is a type
    class over the shared store [W].  A method that returns [(x, err)] returns
    a pair here; a getter is a function of the store. *)

Class connection (W : Type) := {
  conn_write : bytes -> W -> option error * W;
  conn_setCurrentRemoteAddr : N -> W -> W
}.

Class SentPacketHandler (W : Type) := {
  SentPacket : Packet -> W -> option error * W;
  ReceivedAck :
    AckFrame -> W -> (Duration * list Packet * list Packet * option error) * W;
  DequeuePacketForRetransmission : W -> option Packet * W;
  BytesInFlight : W -> ByteCount
}.

Class ReceivedPacketHandler (W : Type) := {
  ReceivedPacket : PacketNumber -> bool -> W -> W;
  ReceivedStopWaiting : StopWaitingFrame -> W -> option error * W;
  DequeueAckFrame : W -> (option AckFrame * option error) * W
}.

Class StopWaitingManager (W : Type) := {
  RegisterPacketForRetransmission : Packet -> W -> W;
  GetStopWaitingFrame : W -> option StopWaitingFrame * W;
  SentStopWaitingWithPacket : PacketNumber -> W -> W
}.

Class SendAlgorithm (W : Type) := {
  OnCongestionEvent :
    bool -> ByteCount -> list PacketInfo -> list PacketInfo -> W -> W;
  OnPacketSent : Time -> ByteCount -> PacketNumber -> ByteCount -> bool -> W -> W;
  GetCongestionWindow : W -> ByteCount
}.

Class RTTStats (W : Type) := {
  UpdateRTT : Duration -> Duration -> Time -> W -> W;
  SmoothedRTT : W -> Duration
}.

Class packetPacker (W : Type) := {
  AddStreamFrame : StreamFrame -> W -> W;
  AddHighPrioStreamFrame : StreamFrame -> W -> W;
  PackPacket :
    option StopWaitingFrame -> list Frame -> bool -> W ->
    (option packedPacket * option error) * W;
  Empty : W -> bool
}.

(** [Unpack] returns a packet exactly when it returns no error. *)
Class packetUnpacker (W : Type) := {
  Unpack : bytes -> PublicHeader -> bytes -> W -> (error + unpackedPacket) * W
}.

(** What the session uses of packages [protocol], [errorcodes], [handshake]
    and [time], of [ackhandler.Packet] and of [publicResetPacket]. *)
Class Environment (W : Type) := {
  InferPacketNumber : PacketNumberLen -> PacketNumber -> PacketNumber -> PacketNumber;
  QUIC_DECRYPTION_FAILURE : ErrorCode;
  QUIC_PEER_GOING_AWAY : ErrorCode;
  QUIC_NETWORK_IDLE_TIMEOUT : ErrorCode;
  error_Error : error -> string;
  GetIdleConnectionStateLifetime : W -> Duration;
  time_Now : W -> Time * W;
  publicResetPacket_Write : publicResetPacket -> bytes;
  GetControlFramesForRetransmission : Packet -> list Frame;
  GetStreamFramesForRetransmission : Packet -> list StreamFrame
}.

(** The methods of [*stream] (file [stream.go]) that the session calls.  They
    work on the receiver's fields, so they are functions of a live stream; a
    call through a nil [*stream] is a nil-pointer dereference (see
    [handleWindowUpdateFrame]). *)
Class streamMethods (W stream : Type) := {
  newStream : W -> StreamID -> error + stream;
  stream_AddStreamFrame : StreamFrame -> stream -> option error * stream;
  UpdateFlowControlWindow : ByteCount -> stream -> stream;
  RegisterError : error -> stream -> stream;
  finishedReading : stream -> bool
}.

(** ** Calls that leave the session, as recorded in [trace] *)

Inductive Event (stream : Type) : Type :=
| EvSetCurrentRemoteAddr (addr : N)
| EvUnpack (hdr : PublicHeader) (payload : bytes) (res : error + unpackedPacket)
| EvReceivedPacket (pn : PacketNumber) (entropyBit : bool)
| EvReceivedStopWaiting (f : StopWaitingFrame) (res : option error)
| EvReceivedAck (f : AckFrame)
    (res : Duration * list Packet * list Packet * option error)
| EvUpdateRTT (sample delay : Duration) (now : Time)
| EvOnCongestionEvent (rttUpdated : bool) (bytesInFlight : ByteCount)
    (acked lost : list PacketInfo)
| EvDequeuePacketForRetransmission (res : option Packet)
| EvRegisterPacketForRetransmission (p : Packet)
| EvAddHighPrioStreamFrame (f : StreamFrame)
| EvAddStreamFrame (f : StreamFrame)
| EvGetStopWaitingFrame (res : option StopWaitingFrame)
| EvDequeueAckFrame (res : option AckFrame * option error)
| EvPackPacket (swf : option StopWaitingFrame) (controlFrames : list Frame)
    (includeStreamData : bool) (res : option packedPacket * option error)
| EvSentPacket (p : Packet) (res : option error)
| EvOnPacketSent (now : Time) (bytesInFlight : ByteCount) (pn : PacketNumber)
    (len : ByteCount) (retransmittable : bool)
| EvSentStopWaitingWithPacket (pn : PacketNumber)
| EvWrite (raw : bytes) (res : option error)
| EvStreamCallback (id : StreamID) (str : stream)
| EvCloseCallback (id : ConnectionID)
| EvLog (lvl : LogLevel) (line : LogLine).

Arguments EvSetCurrentRemoteAddr {stream}.
Arguments EvUnpack {stream}.
Arguments EvReceivedPacket {stream}.
Arguments EvReceivedStopWaiting {stream}.
Arguments EvReceivedAck {stream}.
Arguments EvUpdateRTT {stream}.
Arguments EvOnCongestionEvent {stream}.
Arguments EvDequeuePacketForRetransmission {stream}.
Arguments EvRegisterPacketForRetransmission {stream}.
Arguments EvAddHighPrioStreamFrame {stream}.
Arguments EvAddStreamFrame {stream}.
Arguments EvGetStopWaitingFrame {stream}.
Arguments EvDequeueAckFrame {stream}.
Arguments EvPackPacket {stream}.
Arguments EvSentPacket {stream}.
Arguments EvOnPacketSent {stream}.
Arguments EvSentStopWaitingWithPacket {stream}.
Arguments EvWrite {stream}.
Arguments EvStreamCallback {stream}.
Arguments EvCloseCallback {stream}.
Arguments EvLog {stream}.

(** ** The session *)

(** [streams] is Go's [map[protocol.StreamID]*stream]: a key may be absent
    ([None]), present with a nil pointer ([Some None], the tombstone) or
    present with a live stream ([Some (Some str)]).  Every stream object is
    referenced from one slot of the table, so the slot holds the stream's
    state.  [receivedPackets] (capacity 1000), [sendingScheduled] (capacity
    1) and [closeChan] (capacity 1) are the buffered channels; the last two
    carry [struct{}] and are a flag and a count. *)
Record Session (W stream : Type) : Type := mkSession {
  connectionID : ConnectionID;
  streams : gmap N (option stream);
  world : W;
  receivedPackets : list receivedPacket;
  sendingScheduled : bool;
  closeChan : nat;
  closed : bool;
  lastRcvdPacketNumber : PacketNumber;
  trace : list (Event stream)
}.

Arguments mkSession {W stream}.
Arguments connectionID {W stream}.
Arguments streams {W stream}.
Arguments world {W stream}.
Arguments receivedPackets {W stream}.
Arguments sendingScheduled {W stream}.
Arguments closeChan {W stream}.
Arguments closed {W stream}.
Arguments lastRcvdPacketNumber {W stream}.
Arguments trace {W stream}.

(** Go panics raised by the session's own code. *)
Inductive panicValue : Type :=
| PanicUnexpectedFrameType
| PanicExpectedPacketNotNil
| PanicNilPointerDereference
| PanicInterfaceConversion.

(** How a call ends: it returns, it panics, or the goroutine blocks for ever
    on a send to a full channel.  The session it leaves behind is kept in
    all three cases. *)
Inductive outcome (S A : Type) : Type :=
| Ret (a : A) (s : S)
| Panic (p : panicValue) (s : S)
| Blocked (s : S).

Arguments Ret {S A}.
Arguments Panic {S A}.
Arguments Blocked {S A}.

Definition state_of {S A : Type} (o : outcome S A) : S :=
  match o with
  | Ret _ s => s
  | Panic _ s => s
  | Blocked s => s
  end.

Definition returned {S A : Type} (o : outcome S A) : option A :=
  match o with
  | Ret a _ => Some a
  | _ => None
  end.

Section SessionCore.

Context {W stream : Type}.
Context `{!connection W, !SentPacketHandler W, !ReceivedPacketHandler W,
          !StopWaitingManager W, !SendAlgorithm W, !RTTStats W,
          !packetPacker W, !packetUnpacker W, !Environment W,
          !streamMethods W stream}.

(** ** Field updates *)

Definition set_streams (f : gmap N (option stream) -> gmap N (option stream))
    (s : Session W stream) : Session W stream :=
  mkSession (connectionID s) (f (streams s)) (world s) (receivedPackets s)
    (sendingScheduled s) (closeChan s) (closed s) (lastRcvdPacketNumber s)
    (trace s).

Definition set_world (w : W) (s : Session W stream) : Session W stream :=
  mkSession (connectionID s) (streams s) w (receivedPackets s)
    (sendingScheduled s) (closeChan s) (closed s) (lastRcvdPacketNumber s)
    (trace s).

Definition set_receivedPackets (q : list receivedPacket)
    (s : Session W stream) : Session W stream :=
  mkSession (connectionID s) (streams s) (world s) q
    (sendingScheduled s) (closeChan s) (closed s) (lastRcvdPacketNumber s)
    (trace s).

Definition set_sendingScheduled (b : bool)
    (s : Session W stream) : Session W stream :=
  mkSession (connectionID s) (streams s) (world s) (receivedPackets s)
    b (closeChan s) (closed s) (lastRcvdPacketNumber s) (trace s).

Definition set_closeChan (n : nat) (s : Session W stream) : Session W stream :=
  mkSession (connectionID s) (streams s) (world s) (receivedPackets s)
    (sendingScheduled s) n (closed s) (lastRcvdPacketNumber s) (trace s).

Definition set_closed (b : bool) (s : Session W stream) : Session W stream :=
  mkSession (connectionID s) (streams s) (world s) (receivedPackets s)
    (sendingScheduled s) (closeChan s) b (lastRcvdPacketNumber s) (trace s).

Definition set_lastRcvdPacketNumber (pn : PacketNumber)
    (s : Session W stream) : Session W stream :=
  mkSession (connectionID s) (streams s) (world s) (receivedPackets s)
    (sendingScheduled s) (closeChan s) (closed s) pn (trace s).

Definition log_event (ev : Event stream)
    (s : Session W stream) : Session W stream :=
  mkSession (connectionID s) (streams s) (world s) (receivedPackets s)
    (sendingScheduled s) (closeChan s) (closed s) (lastRcvdPacketNumber s)
    (trace s ++ [ev]).

(** ** The monad of session methods *)

Definition M (A : Type) : Type :=
  Session W stream -> outcome (Session W stream) A.

#[global] Instance M_ret : MRet M := fun A a s => Ret a s.

#[global] Instance M_bind : MBind M := fun A B f m s =>
  match m s with
  | Ret a s' => f a s'
  | Panic p s' => Panic p s'
  | Blocked s' => Blocked s'
  end.

Definition get : M (Session W stream) := fun s => Ret s s.

Definition modify (f : Session W stream -> Session W stream) : M unit :=
  fun s => Ret tt (f s).

Definition panic {A : Type} (p : panicValue) : M A := fun s => Panic p s.

Definition block {A : Type} : M A := fun s => Blocked s.

Definition emit (ev : Event stream) : M unit := modify (log_event ev).

(** A call of a collaborator's method: the method runs on the shared store
    and the call is recorded with its result. *)
Definition call {A : Type} (op : W -> A * W) (ev : A -> Event stream) : M A :=
  fun s => let '(a, w) := op (world s) in Ret a (log_event (ev a) (set_world w s)).

Definition call_ (op : W -> W) (ev : Event stream) : M unit :=
  fun s => Ret tt (log_event ev (set_world (op (world s)) s)).

Definition utils_Debugf (line : LogLine) : M unit := emit (EvLog LevelDebug line).
Definition utils_Infof (line : LogLine) : M unit := emit (EvLog LevelInfo line).
Definition utils_Errorf (line : LogLine) : M unit := emit (EvLog LevelError line).

(** [for k, v := range s.streams { body }], for a body that writes at most
    the slot [k] it is visiting: every key of the table is visited once. *)
Definition range_streams
    (body : N -> option stream -> gmap N (option stream) -> gmap N (option stream))
    (m : gmap N (option stream)) : gmap N (option stream) :=
  foldl (fun acc kv => body kv.1 kv.2 acc) m (map_to_list m).

(** ** Stream table *)

Definition isValidStreamID (streamID : StreamID) : bool :=
  if negb (streamID mod 2 =? 1) then false else true.

(** [s.streams[id] != nil] reads Go's zero value (nil) for an absent key, so
    the guard lets through an absent id and a tombstoned one alike. *)
Definition NewStream (id : StreamID) : M (error + stream) :=
  s ← get;
  match newStream (world s) id with
  | inl err => mret (inl err)
  | inr str =>
      match default None (streams s !! id) with
      | Some _ => mret (inl (errorString "Session: stream with ID already exists"))
      | None =>
          modify (set_streams (insert id (Some str)));;
          mret (inr str)
      end
  end.

Definition garbageCollectStreams : M unit :=
  modify (set_streams (range_streams (fun k v m =>
    match v with
    | None => m
    | Some str => if finishedReading str then <[k := None]> m else m
    end))).

Definition closeStreamsWithError (err : error) : M unit :=
  modify (set_streams (range_streams (fun k v m =>
    match v with
    | None => m
    | Some str => <[k := Some (RegisterError err str)]> m
    end))).

(** ** Frame handlers *)

(** [continue] is the code after the [if !streamExists] block; it runs on
    the pointer found in the table or on the stream just made.  When
    [NewStream] fails, [ss] is a nil interface and its type assertion to a
    stream pointer panics. *)
Definition handleStreamFrame (frame : StreamFrame) : M (option error) :=
  s ← get;
  let id := sf_StreamID frame in
  let continue (str : option stream) (streamExists : bool) : M (option error) :=
    match str with
    | None => mret (Some errReopeningStreamsNotAllowed)
    | Some st =>
        let '(err, st') := stream_AddStreamFrame frame st in
        modify (set_streams (insert id (Some st')));;
        match err with
        | Some e => mret (Some e)
        | None =>
            (if streamExists then mret tt else emit (EvStreamCallback id st'));;
            mret None
        end
    end in
  match streams s !! id with
  | None =>
      if negb (isValidStreamID id) then mret (Some errInvalidStreamID)
      else
        ss ← NewStream id;
        match ss with
        | inl _ => panic PanicInterfaceConversion
        | inr str => continue (Some str) false
        end
  | Some str => continue str true
  end.

(** Only [ok] of the lookup is tested, so
    [stream.UpdateFlowControlWindow(frame.ByteOffset)] is called on whatever
    pointer the slot holds; on the nil pointer of a tombstoned slot the
    method, which raises the receiver's window, dereferences nil. *)
Definition handleWindowUpdateFrame (frame : WindowUpdateFrame) : M (option error) :=
  if wuf_StreamID frame =? 0 then mret None
  else
    s ← get;
    match streams s !! wuf_StreamID frame with
    | None => mret (Some errWindowUpdateOnInvalidStream)
    | Some None => panic PanicNilPointerDereference
    | Some (Some str) =>
        modify (set_streams (insert (wuf_StreamID frame)
          (Some (UpdateFlowControlWindow (wuf_ByteOffset frame) str))));;
        mret None
    end.

(** The text of the error made with [fmt.Errorf] is kept without the
    formatted code. *)
Definition handleRstStreamFrame (frame : RstStreamFrame) : M (option error) :=
  s ← get;
  match streams s !! rsf_StreamID frame with
  | None | Some None => mret (Some errRstStreamOnInvalidStream)
  | Some (Some str) =>
      modify (set_streams (insert (rsf_StreamID frame)
        (Some (RegisterError (errorString "RST_STREAM received with code") str))));;
      mret None
  end.

Definition toPacketInfo (v : Packet) : PacketInfo :=
  mkPacketInfo (pkt_PacketNumber v) (pkt_Length v).

(** [time.Now()]: the clock is part of the store. *)
Definition now : M Time :=
  fun s => let '(t, w) := time_Now (world s) in Ret t (set_world w s).

Definition handleAckFrame (frame : AckFrame) : M (option error) :=
  '(duration, acked, lost, err) ← call (ReceivedAck frame) (EvReceivedAck frame);
  match err with
  | Some e => mret (Some e)
  | None =>
      t ← now;
      call_ (UpdateRTT duration (ack_DelayTime frame) t)
        (EvUpdateRTT duration (ack_DelayTime frame) t);;
      let cAcked := map toPacketInfo acked in
      let cLost := map toPacketInfo lost in
      s ← get;
      call_ (OnCongestionEvent true (BytesInFlight (world s)) cAcked cLost)
        (EvOnCongestionEvent true (BytesInFlight (world s)) cAcked cLost);;
      utils_Debugf (LogReceivedFrame (FAck frame));;
      s' ← get;
      utils_Debugf (LogEstimatedRTT (SmoothedRTT (world s')));;
      mret None
  end.

(** ** Closing *)

Definition sendPublicReset (rejectedPacketNumber : PacketNumber) : M (option error) :=
  s ← get;
  utils_Infof (LogSendingPublicReset (connectionID s) rejectedPacketNumber);;
  let packet := mkPublicResetPacket (connectionID s) rejectedPacketNumber 0 in
  let b := publicResetPacket_Write packet in
  call (conn_write b) (EvWrite b).

(** [s.closeChan <- struct{}{}] on a channel of capacity 1. *)
Definition send_closeChan : M unit :=
  s ← get;
  if decide (closeChan s < 1)%nat then modify (set_closeChan (S (closeChan s)))
  else block.

Definition errorCode_of (e : error) : ErrorCode :=
  match e with
  | QuicError code _ => code
  | _ => 1
  end.

Definition Close (e : option error) (sendConnectionClose : bool) : M (option error) :=
  s ← get;
  if closed s then mret None
  else
    modify (set_closed true);;
    send_closeChan;;
    emit (EvCloseCallback (connectionID s));;
    if negb sendConnectionClose then mret None
    else
      let e := match e with
               | None => QuicError QUIC_PEER_GOING_AWAY "peer going away"
               | Some e => e
               end in
      utils_Errorf (LogClosingSession e);;
      let errorCode := errorCode_of e in
      let reasonPhrase := error_Error e in
      closeStreamsWithError e;;
      if errorCode =? QUIC_DECRYPTION_FAILURE then
        s' ← get;
        sendPublicReset (lastRcvdPacketNumber s')
      else
        let frames :=
          [FConnectionClose (mkConnectionCloseFrame errorCode reasonPhrase)] in
        '(packet, err) ← call (PackPacket None frames false)
                            (EvPackPacket None frames false);
        match err with
        | Some err => mret (Some err)
        | None =>
            match packet with
            | None => panic PanicExpectedPacketNotNil
            | Some packet => call (conn_write (pp_raw packet)) (EvWrite (pp_raw packet))
            end
        end.

(** ** Sending *)

(** The non-blocking send on [sendingScheduled] (capacity 1): the signal is
    pending afterwards whether or not one was pending before. *)
Definition scheduleSending : M unit :=
  s ← get;
  if sendingScheduled s then mret tt else modify (set_sendingScheduled true).

Definition congestionAllowsSending : M bool :=
  s ← get;
  mret (BytesInFlight (world s) <=? GetCongestionWindow (world s)).

Fixpoint AddHighPrioStreamFrames (fs : list StreamFrame) : M unit :=
  match fs with
  | [] => mret tt
  | streamFrame :: rest =>
      call_ (AddHighPrioStreamFrame streamFrame) (EvAddHighPrioStreamFrame streamFrame);;
      AddHighPrioStreamFrames rest
  end.

Fixpoint logSentFrames (fs : list Frame) : M unit :=
  match fs with
  | [] => mret tt
  | frame :: rest => utils_Debugf (LogSentFrame frame);; logSentFrames rest
  end.

Definition sendPacket : M (option error) :=
  allowed ← congestionAllowsSending;
  if negb allowed then mret None
  else
    retransmitPacket ← call DequeuePacketForRetransmission
                         EvDequeuePacketForRetransmission;
    controlFrames ←
      match retransmitPacket with
      | Some p =>
          utils_Debugf (LogDequeueingRetransmission (pkt_PacketNumber p));;
          call_ (RegisterPacketForRetransmission p) (EvRegisterPacketForRetransmission p);;
          AddHighPrioStreamFrames (GetStreamFramesForRetransmission p);;
          mret ([] ++ GetControlFramesForRetransmission p)
      | None => mret []
      end;
    stopWaitingFrame ← call GetStopWaitingFrame EvGetStopWaitingFrame;
    '(ack, err) ← call DequeueAckFrame EvDequeueAckFrame;
    match err with
    | Some err => mret (Some err)
    | None =>
        let controlFrames :=
          match ack with
          | Some ack => controlFrames ++ [FAck ack]
          | None => controlFrames
          end in
        '(packet, err) ← call (PackPacket stopWaitingFrame controlFrames true)
                            (EvPackPacket stopWaitingFrame controlFrames true);
        match err with
        | Some err => mret (Some err)
        | None =>
            match packet with
            | None => mret None
            | Some packet =>
                let len := N.of_nat (length (pp_raw packet)) in
                let sent := mkPacket (pp_number packet) (pp_frames packet)
                              (pp_entropyBit packet) len in
                err ← call (SentPacket sent) (EvSentPacket sent);
                match err with
                | Some err => mret (Some err)
                | None =>
                    t ← now;
                    s ← get;
                    call_ (OnPacketSent t (BytesInFlight (world s)) (pp_number packet) len true)
                      (EvOnPacketSent t (BytesInFlight (world s)) (pp_number packet) len true);;
                    call_ (SentStopWaitingWithPacket (pp_number packet))
                      (EvSentStopWaitingWithPacket (pp_number packet));;
                    utils_Debugf (LogSendingPacket (pp_number packet) len);;
                    logSentFrames (pp_frames packet);;
                    err ← call (conn_write (pp_raw packet)) (EvWrite (pp_raw packet));
                    match err with
                    | Some err => mret (Some err)
                    | None =>
                        s' ← get;
                        (if negb (Empty (world s')) then scheduleSending else mret tt);;
                        mret None
                    end
                end
            end
        end
    end.

Definition QueueStreamFrame (frame : StreamFrame) : M (option error) :=
  call_ (AddStreamFrame frame) (EvAddStreamFrame frame);;
  scheduleSending;;
  mret None.

(** ** Receiving *)

(** The body of the type switch of [handlePacket], for one frame. *)
Definition handleFrame (ff : Frame) : M (option error) :=
  match ff with
  | FStream frame =>
      utils_Debugf (LogReceivedFrame ff);;
      handleStreamFrame frame
  | FAck frame => handleAckFrame frame
  | FConnectionClose frame =>
      utils_Debugf (LogReceivedFrame ff);;
      Close None false;;
      mret None
  | FStopWaiting frame =>
      utils_Debugf (LogReceivedFrame ff);;
      call (ReceivedStopWaiting frame) (EvReceivedStopWaiting frame)
  | FRstStream frame =>
      err ← handleRstStreamFrame frame;
      utils_Debugf (LogReceivedFrame ff);;
      mret err
  | FWindowUpdate frame =>
      utils_Debugf (LogReceivedFrame ff);;
      handleWindowUpdateFrame frame
  | FBlocked frame =>
      s ← get;
      utils_Infof (LogBlockedFrame (connectionID s) (bf_StreamID frame));;
      mret None
  | FPing =>
      utils_Debugf (LogReceivedFrame ff);;
      mret None
  | OtherFrame => panic PanicUnexpectedFrameType
  end.

(** [for _, ff := range packet.frames { ...; if err != nil { return err } }] *)
Fixpoint handleFrames (fs : list Frame) : M (option error) :=
  match fs with
  | [] => mret None
  | ff :: rest =>
      err ← handleFrame ff;
      match err with
      | Some err => mret (Some err)
      | None => handleFrames rest
      end
  end.

Definition isDecryptionFailure (err : error) : bool :=
  match err with
  | QuicError code _ => code =? QUIC_DECRYPTION_FAILURE
  | _ => false
  end.

Definition handlePacket (remoteAddr : N) (publicHeader : PublicHeader) (r : bytes)
    : M (option error) :=
  s ← get;
  let pn := InferPacketNumber (ph_PacketNumberLen publicHeader)
              (lastRcvdPacketNumber s) (ph_PacketNumber publicHeader) in
  let publicHeader := mkPublicHeader (ph_Raw publicHeader)
                        (ph_ConnectionID publicHeader)
                        (ph_PacketNumberLen publicHeader) pn in
  modify (set_lastRcvdPacketNumber pn);;
  utils_Debugf (LogReadingPacket pn (N.of_nat (length r)) (ph_ConnectionID publicHeader));;
  call_ (conn_setCurrentRemoteAddr remoteAddr) (EvSetCurrentRemoteAddr remoteAddr);;
  res ← call (Unpack (ph_Raw publicHeader) publicHeader r) (EvUnpack publicHeader r);
  match res with
  | inl err =>
      if isDecryptionFailure err then
        utils_Infof LogDiscardingPacket;;
        mret None
      else mret (Some err)
  | inr packet =>
      call_ (ReceivedPacket pn (up_entropyBit packet))
        (EvReceivedPacket pn (up_entropyBit packet));;
      handleFrames (up_frames packet)
  end.

(** [s.receivedPackets <- receivedPacket{...}] on a channel of capacity 1000. *)
Definition HandlePacket (remoteAddr : N) (publicHeader : PublicHeader) (r : bytes)
    : M unit :=
  s ← get;
  if decide (length (receivedPackets s) < 1000)%nat then
    modify (set_receivedPackets
              (receivedPackets s ++ [mkReceivedPacket remoteAddr publicHeader r]))
  else block.

(** ** The event loop *)

(** The [if err != nil { switch err { ... } }] block of [Run]. *)
Definition Run_disposeError (err : option error) : M unit :=
  match err with
  | None => mret tt
  | Some ErrDuplicateOrOutOfOrderAck => mret tt
  | Some ErrMapAccess => Close err true;; mret tt
  | Some errRstStreamOnInvalidStream =>
      utils_Errorf (LogIgnoringError errRstStreamOnInvalidStream)
  | Some _ => Close err true;; mret tt
  end.

(** The case of the second [select] of [Run] that fires. *)
Inductive selectCase : Type :=
| caseCloseChan
| caseReceivedPackets
| caseSendingScheduled
| caseTimeAfter.

Inductive loopStatus : Type := LoopContinue | LoopReturn.

Definition idleTimeoutError : error :=
  QuicError QUIC_NETWORK_IDLE_TIMEOUT "No recent network activity.".

(** One iteration of the [for] loop of [Run], given the case that fires;
    [None] when that case is not ready in the session's state.  The timer
    case is always possible: it fires when nothing else did in time. *)
Definition Run_iteration (c : selectCase) (s : Session W stream)
    : option (outcome (Session W stream) loopStatus) :=
  let finish (handler : M (option error)) : M loopStatus :=
    err ← handler;
    Run_disposeError err;;
    garbageCollectStreams;;
    mret LoopContinue in
  match closeChan s with
  | S n => Some (Ret LoopReturn (set_closeChan n s))
  | O =>
      match c with
      | caseCloseChan => None
      | caseReceivedPackets =>
          match receivedPackets s with
          | [] => None
          | p :: q =>
              Some (finish (err ← handlePacket (remoteAddr p) (publicHeader p) (r p);
                            scheduleSending;;
                            mret err)
                     (set_receivedPackets q s))
          end
      | caseSendingScheduled =>
          if sendingScheduled s
          then Some (finish sendPacket (set_sendingScheduled false s))
          else None
      | caseTimeAfter =>
          Some (finish (Close (Some idleTimeoutError) true;; mret None) s)
      end
  end.

(** ** Vocabulary of the statements *)

(** The calls recorded between the session [s] and a later session [s']. *)
Definition new_events (s s' : Session W stream) : list (Event stream) :=
  drop (length (trace s)) (trace s').

Definition log_events (evs : list (Event stream))
    (s : Session W stream) : Session W stream :=
  mkSession (connectionID s) (streams s) (world s) (receivedPackets s)
    (sendingScheduled s) (closeChan s) (closed s) (lastRcvdPacketNumber s)
    (trace s ++ evs).

(** The slot of [id] is a tombstone: present, and nil. *)
Definition tombstoned (id : StreamID) (s : Session W stream) : Prop :=
  streams s !! id = Some None.

Definition isCloseCallback (ev : Event stream) : bool :=
  match ev with EvCloseCallback _ => true | _ => false end.

(** The close channel holds nothing as long as [Close] has not run. *)
Definition closeChan_ok (s : Session W stream) : Prop :=
  closed s = false -> closeChan s = 0%nat.

(** What every method of the session keeps true from [s] to [s']: tombstones
    stay tombstones, the close channel stays empty until the session is
    closed, and a closed session stays closed. *)
Definition evolves (s s' : Session W stream) : Prop :=
  (forall k, tombstoned k s -> tombstoned k s') /\
  (closeChan_ok s -> closeChan_ok s') /\
  (closed s = true -> closed s' = true).

(** The two calls by which a sent packet is accounted for: loss recovery's
    [SentPacket] and the congestion controller's [OnPacketSent]. *)
Definition sentAccounting (ev : Event stream) : bool :=
  match ev with
  | EvSentPacket _ _ | EvOnPacketSent _ _ _ _ _ => true
  | _ => false
  end.

(** What one visit of [garbageCollectStreams] leaves in a slot. *)
Definition gc_entry (v : option stream) : option stream :=
  match v with
  | None => None
  | Some str => if finishedReading str then None else Some str
  end.

(** ** Construction *)

(** [NewSession], given the store [w] of the freshly made collaborators: the
    tables and channels are empty and the crypto stream 1 is opened. *)
Definition NewSession (w : W) (connectionID : ConnectionID) : Session W stream :=
  state_of (NewStream 1 (mkSession connectionID ∅ w [] false 0%nat false 0 [])).

(** The calls by which [sendPacket] gets a packet out: the packer's
    [PackPacket], loss recovery's [SentPacket], the congestion controller's
    [OnPacketSent] and the connection's [write]. *)
Definition sendPipeline (ev : Event stream) : bool :=
  match ev with
  | EvPackPacket _ _ _ _ | EvSentPacket _ _
  | EvOnPacketSent _ _ _ _ _ | EvWrite _ _ => true
  | _ => false
  end.

(** The calls that feed [PackPacket] in [sendPacket], and [PackPacket]. *)
Definition packInputs (ev : Event stream) : bool :=
  match ev with
  | EvDequeuePacketForRetransmission _ | EvGetStopWaitingFrame _
  | EvDequeueAckFrame _ | EvPackPacket _ _ _ _ => true
  | _ => false
  end.

(** The [ackhandler.Packet] that [sendPacket] makes of a packed packet. *)
Definition sentPacketOf (packet : packedPacket) : Packet :=
  mkPacket (pp_number packet) (pp_frames packet) (pp_entropyBit packet)
    (N.of_nat (length (pp_raw packet))).

(** The control frames [sendPacket] hands to the packer: those of the
    retransmitted packet, then the ACK frame. *)
Definition controlFramesOf (retransmitPacket : option Packet)
    (ack : option AckFrame) : list Frame :=
  match retransmitPacket with
  | Some p => GetControlFramesForRetransmission p
  | None => []
  end ++
  match ack with
  | Some a => [FAck a]
  | None => []
  end.

(** Frames that [handlePacket] only logs. *)
Definition isPingOrBlocked (ff : Frame) : bool :=
  match ff with
  | FPing | FBlocked _ => true
  | _ => false
  end.

(** What [handlePacket] records for a frame that it only logs. *)
Definition logOnlyEvent (cid : ConnectionID) (ff : Frame) : Event stream :=
  match ff with
  | FBlocked frame => EvLog LevelInfo (LogBlockedFrame cid (bf_StreamID frame))
  | _ => EvLog LevelDebug (LogReceivedFrame ff)
  end.

(** From [s] to [s'] the connection id and the ingress queue are the
    same. *)
Definition steady (s s' : Session W stream) : Prop :=
  connectionID s' = connectionID s /\ receivedPackets s' = receivedPackets s.

(** ** Session histories

    The sessions that exist: a new session, and what the calls that can be
    made on a session leave behind, whatever their outcome: the iterations of
    [Run], the exported methods ([HandlePacket], [Close], [QueueStreamFrame],
    [NewStream]), and the application's use of a stream it holds (reading it
    changes the state of that stream and nothing else). *)
Inductive reachable : Session W stream -> Prop :=
| reachable_NewSession (w : W) (cid : ConnectionID) :
    reachable (NewSession w cid)
| reachable_Run s c o :
    reachable s -> Run_iteration c s = Some o -> reachable (state_of o)
| reachable_HandlePacket s remoteAddr publicHeader r :
    reachable s -> reachable (state_of (HandlePacket remoteAddr publicHeader r s))
| reachable_Close s e sendConnectionClose :
    reachable s -> reachable (state_of (Close e sendConnectionClose s))
| reachable_QueueStreamFrame s frame :
    reachable s -> reachable (state_of (QueueStreamFrame frame s))
| reachable_NewStream s id :
    reachable s -> reachable (state_of (NewStream id s))
| reachable_stream_use s id (f : stream -> stream) :
    reachable s -> reachable (set_streams (alter (fmap f) id) s).

End SessionCore.

(** ** Test doubles

    A small, executable implementation of every interface; the closed
    examples below run the session on it. *)

Module Demo.

Record stream : Type := mkStream {
  frames : list StreamFrame;
  flowControlWindow : ByteCount;
  err : option error;
  finReceived : bool;
  readToEOF : bool
}.

Record World : Type := mkWorld {
  bytesInFlight : ByteCount;
  congestionWindow : ByteCount;
  retransmissionQueue : list Packet;
  ackQueue : list AckFrame;
  packerQueue : list StreamFrame;
  nextPacketNumber : PacketNumber;
  clock : Time;
  currentRemoteAddr : N;
  written : list bytes
}.

Definition initialWorld : World :=
  mkWorld 0 14600 [] [] [] 1 0%Z 0 [].

Definition with_bytesInFlight (n : ByteCount) (w : World) : World :=
  mkWorld n (congestionWindow w) (retransmissionQueue w) (ackQueue w)
    (packerQueue w) (nextPacketNumber w) (clock w) (currentRemoteAddr w) (written w).

Definition with_retransmissionQueue (q : list Packet) (w : World) : World :=
  mkWorld (bytesInFlight w) (congestionWindow w) q (ackQueue w)
    (packerQueue w) (nextPacketNumber w) (clock w) (currentRemoteAddr w) (written w).

Definition with_ackQueue (q : list AckFrame) (w : World) : World :=
  mkWorld (bytesInFlight w) (congestionWindow w) (retransmissionQueue w) q
    (packerQueue w) (nextPacketNumber w) (clock w) (currentRemoteAddr w) (written w).

Definition with_packerQueue (q : list StreamFrame) (w : World) : World :=
  mkWorld (bytesInFlight w) (congestionWindow w) (retransmissionQueue w) (ackQueue w)
    q (nextPacketNumber w) (clock w) (currentRemoteAddr w) (written w).

Definition with_nextPacketNumber (n : PacketNumber) (w : World) : World :=
  mkWorld (bytesInFlight w) (congestionWindow w) (retransmissionQueue w) (ackQueue w)
    (packerQueue w) n (clock w) (currentRemoteAddr w) (written w).

Definition with_clock (t : Time) (w : World) : World :=
  mkWorld (bytesInFlight w) (congestionWindow w) (retransmissionQueue w) (ackQueue w)
    (packerQueue w) (nextPacketNumber w) t (currentRemoteAddr w) (written w).

Definition with_currentRemoteAddr (a : N) (w : World) : World :=
  mkWorld (bytesInFlight w) (congestionWindow w) (retransmissionQueue w) (ackQueue w)
    (packerQueue w) (nextPacketNumber w) (clock w) a (written w).

Definition with_written (l : list bytes) (w : World) : World :=
  mkWorld (bytesInFlight w) (congestionWindow w) (retransmissionQueue w) (ackQueue w)
    (packerQueue w) (nextPacketNumber w) (clock w) (currentRemoteAddr w) l.

#[global] Instance demo_connection : connection World := {|
  conn_write raw w := (None, with_written (written w ++ [raw]) w);
  conn_setCurrentRemoteAddr a w := with_currentRemoteAddr a w
|}.

(** Loss recovery refuses a packet of length 0 and counts the others as in
    flight. *)
#[global] Instance demo_SentPacketHandler : SentPacketHandler World := {|
  SentPacket p w :=
    if pkt_Length p =? 0 then (Some (errorString "empty packet"), w)
    else (None, with_bytesInFlight (bytesInFlight w + pkt_Length p) w);
  ReceivedAck f w := ((0%Z, [], [], Some ErrDuplicateOrOutOfOrderAck), w);
  DequeuePacketForRetransmission w :=
    match retransmissionQueue w with
    | [] => (None, w)
    | p :: q => (Some p, with_retransmissionQueue q w)
    end;
  BytesInFlight w := bytesInFlight w
|}.

#[global] Instance demo_ReceivedPacketHandler : ReceivedPacketHandler World := {|
  ReceivedPacket pn entropyBit w :=
    with_ackQueue (ackQueue w ++ [mkAckFrame pn 0%Z]) w;
  ReceivedStopWaiting f w := (None, w);
  DequeueAckFrame w :=
    match ackQueue w with
    | [] => ((None, None), w)
    | a :: q => ((Some a, None), with_ackQueue q w)
    end
|}.

#[global] Instance demo_StopWaitingManager : StopWaitingManager World := {|
  RegisterPacketForRetransmission p w := w;
  GetStopWaitingFrame w := (None, w);
  SentStopWaitingWithPacket pn w := w
|}.

#[global] Instance demo_SendAlgorithm : SendAlgorithm World := {|
  OnCongestionEvent rttUpdated bif acked lost w := w;
  OnPacketSent t bif pn len retransmittable w := w;
  GetCongestionWindow w := congestionWindow w
|}.

#[global] Instance demo_RTTStats : RTTStats World := {|
  UpdateRTT sample delay t w := w;
  SmoothedRTT w := 0%Z
|}.

(** The packer puts every queued frame in one packet, one byte of payload
    for each frame, and packs nothing when there is nothing to send. *)
#[global] Instance demo_packetPacker : packetPacker World := {|
  AddStreamFrame f w := with_packerQueue (packerQueue w ++ [f]) w;
  AddHighPrioStreamFrame f w := with_packerQueue (f :: packerQueue w) w;
  PackPacket swf controlFrames includeStreamData w :=
    let fs :=
      match swf with Some f => [FStopWaiting f] | None => [] end
      ++ controlFrames
      ++ (if includeStreamData then map FStream (packerQueue w) else []) in
    match fs with
    | [] => ((None, None), w)
    | _ =>
        ((Some (mkPackedPacket (nextPacketNumber w)
                  (map (fun _ => Byte.x00) fs) fs false), None),
         with_nextPacketNumber (nextPacketNumber w + 1)
           (if includeStreamData then with_packerQueue [] w else w))
    end;
  Empty w := match packerQueue w with [] => true | _ => false end
|}.

(** A one-byte wire format: an empty payload does not decrypt, [x01] is a
    PING, [x02] a STREAM frame with FIN on stream 5, [x03] a WINDOW_UPDATE
    for stream 5. *)
#[global] Instance demo_packetUnpacker : packetUnpacker World := {|
  Unpack raw hdr payload w :=
    (match payload with
     | [] => inl (QuicError 12 "decryption failure")
     | [Byte.x01] => inr (mkUnpackedPacket false [FPing])
     | [Byte.x02] =>
         inr (mkUnpackedPacket false [FStream (mkStreamFrame 5 true 0 [Byte.x61])])
     | [Byte.x03] =>
         inr (mkUnpackedPacket false [FWindowUpdate (mkWindowUpdateFrame 5 100)])
     | _ => inl (errorString "malformed packet")
     end, w)
|}.

Definition isStreamFrame (f : Frame) : bool :=
  match f with FStream _ => true | _ => false end.

#[global] Instance demo_Environment : Environment World := {|
  InferPacketNumber len last wire := wire;
  QUIC_DECRYPTION_FAILURE := 12;
  QUIC_PEER_GOING_AWAY := 16;
  QUIC_NETWORK_IDLE_TIMEOUT := 25;
  error_Error e :=
    match e with
    | QuicError _ m => m
    | errorString m => m
    | _ => "session error"%string
    end;
  GetIdleConnectionStateLifetime w := 30000000000%Z;
  time_Now w := (clock w, with_clock (clock w + 1)%Z w);
  publicResetPacket_Write p := [Byte.x0e];
  GetControlFramesForRetransmission p :=
    List.filter (fun f => negb (isStreamFrame f)) (pkt_Frames p);
  GetStreamFramesForRetransmission p :=
    omap (fun f => match f with FStream sf => Some sf | _ => None end) (pkt_Frames p)
|}.

#[global] Instance demo_streamMethods : streamMethods World stream := {|
  newStream w id := inr (mkStream [] 16384 None false false);
  stream_AddStreamFrame f str :=
    (None, mkStream (frames str ++ [f]) (flowControlWindow str) (err str)
             (finReceived str || sf_FinBit f) (readToEOF str));
  UpdateFlowControlWindow n str :=
    if flowControlWindow str <? n
    then mkStream (frames str) n (err str) (finReceived str) (readToEOF str)
    else str;
  RegisterError e str :=
    match err str with
    | Some _ => str
    | None => mkStream (frames str) (flowControlWindow str) (Some e)
                (finReceived str) (readToEOF str)
    end;
  finishedReading str := finReceived str && readToEOF str
|}.

(** The application reads a stream up to its end. *)
Definition readAll (str : stream) : stream :=
  mkStream (frames str) (flowControlWindow str) (err str) (finReceived str) true.

Definition session0 : Session World stream := NewSession initialWorld 4242.

(** One iteration of [Run] with the given case of the [select]. *)
Definition step (c : selectCase) (s : Session World stream) : Session World stream :=
  match Run_iteration c s with
  | Some o => state_of o
  | None => s
  end.

Definition header (pn : PacketNumber) : PublicHeader := mkPublicHeader [] 4242 1 pn.

(** The peer opens stream 5 with a frame that carries FIN; the loop handles
    the packet. *)
Definition session1 : Session World stream :=
  step caseReceivedPackets (state_of (HandlePacket 9 (header 1) [Byte.x02] session0)).

(** The application reads stream 5 to its end. *)
Definition session2 : Session World stream :=
  set_streams (alter (fmap readAll) 5) session1.

(** The next iteration of the loop (the pending send) collects stream 5. *)
Definition session3 : Session World stream := step caseSendingScheduled session2.

(** A session whose bytes in flight exceed the congestion window. *)
Definition congested : Session World stream :=
  set_world (with_bytesInFlight 20000 initialWorld) session0.

(** A session that has been closed without a CONNECTION_CLOSE being sent,
    as on the peer's CONNECTION_CLOSE frame. *)
Definition closedSession : Session World stream :=
  state_of (Close None false session0).

(** [session3] with a further packet of the peer for the retired stream 5
    in the ingress queue. *)
Definition session4 : Session World stream :=
  state_of (HandlePacket 9 (header 2) [Byte.x02] session3).

(** A new session with a PING packet in the ingress queue. *)
Definition pingQueued : Session World stream :=
  state_of (HandlePacket 9 (header 1) [Byte.x01] session0).

(** A new session on which the application has opened stream 4. *)
Definition localStream4 : Session World stream :=
  state_of (NewStream 4 session0).

End Demo.

(** * Properties of the session *)

Section SessionProofs.

Context {W stream : Type}.
Context `{!connection W, !SentPacketHandler W, !ReceivedPacketHandler W,
          !StopWaitingManager W, !SendAlgorithm W, !RTTStats W,
          !packetPacker W, !packetUnpacker W, !Environment W,
          !streamMethods W stream}.

Implicit Types (s : Session W stream) (m : gmap N (option stream)).

Ltac unfold_M :=
  unfold mbind, mret, M_bind, M_ret, get, modify, emit, call, call_, panic,
    block, utils_Debugf, utils_Infof, utils_Errorf, now in *.

(** ** Loops over the stream table *)

(** A loop body that stores [g v] in the slot it visits maps [g] over the
    table, whatever the order of the visit. *)
Lemma foldl_body_lookup (g : option stream -> option stream)
    (body : N -> option stream -> gmap N (option stream) -> gmap N (option stream))
    (l : list (N * option stream)) :
  (forall k v m, m !! k = Some v -> body k v m = <[k := g v]> m) ->
  forall acc : gmap N (option stream),
  NoDup l.*1 ->
  (forall k v, (k, v) ∈ l -> acc !! k = Some v) ->
  forall i,
    foldl (fun a kv => body kv.1 kv.2 a) acc l !! i =
    match (list_to_map l : gmap N (option stream)) !! i with
    | Some v => Some (g v)
    | None => acc !! i
    end.
Proof.
  intros Hbody. induction l as [|[k v] l IH]; intros acc Hnd Hacc i; simpl.
  - by rewrite lookup_empty.
  - inversion Hnd as [|? ? Hk Hnd']; subst.
    rewrite Hbody by (apply Hacc; left).
    rewrite IH; [| done |].
    + destruct (decide (k = i)) as [->|Hne].
      * rewrite lookup_insert_eq.
        rewrite (not_elem_of_list_to_map_1 (M := gmap N) l i Hk).
        by rewrite lookup_insert_eq.
      * by rewrite !(lookup_insert_ne _ k i).
    + intros k' v' Hin. rewrite lookup_insert_ne.
      * apply Hacc. by right.
      * intros ->. apply Hk. apply list_elem_of_fmap. by exists (k', v').
Qed.

Lemma range_streams_lookup (g : option stream -> option stream)
    (body : N -> option stream -> gmap N (option stream) -> gmap N (option stream))
    m i :
  (forall k v m', m' !! k = Some v -> body k v m' = <[k := g v]> m') ->
  range_streams body m !! i = g <$> (m !! i).
Proof.
  intros Hbody. unfold range_streams.
  rewrite (foldl_body_lookup g body (map_to_list m) Hbody).
  - rewrite list_to_map_to_list. by destruct (m !! i).
  - apply NoDup_fst_map_to_list.
  - intros k v Hin. by apply elem_of_map_to_list.
Qed.

Lemma garbageCollectStreams_eq s i :
  garbageCollectStreams s = Ret tt (state_of (garbageCollectStreams s)) /\
  streams (state_of (garbageCollectStreams s)) !! i = gc_entry <$> streams s !! i.
Proof.
  split; [done|]. unfold garbageCollectStreams, modify. simpl.
  apply range_streams_lookup. intros k v m' Hk.
  destruct v as [str|]; simpl.
  - destruct (finishedReading str); [done|]. by rewrite insert_id.
  - by rewrite insert_id.
Qed.

(** C10. [garbageCollectStreams] removes no key of the stream table; a slot
    becomes nil exactly when it held a live stream whose [finishedReading()]
    is true; every other slot (tombstones, unfinished streams) and every
    other field of the session is left as it was. *)
Theorem garbageCollectStreams_tombstones_exactly_finished s :
  let s' := state_of (garbageCollectStreams s) in
  garbageCollectStreams s = Ret tt s' /\
  s' = set_streams (fun _ => streams s') s /\
  forall k,
    (is_Some (streams s !! k) -> is_Some (streams s' !! k)) /\
    ((streams s' !! k = Some None /\ streams s !! k <> Some None) <->
     exists str, streams s !! k = Some (Some str) /\ finishedReading str = true) /\
    ((forall str, streams s !! k = Some (Some str) -> finishedReading str = false) ->
     streams s' !! k = streams s !! k).
Proof.
  cbv zeta. split; [done|]. split; [done|]. intros k.
  destruct (garbageCollectStreams_eq s k) as [_ ->].
  destruct (streams s !! k) as [[str|]|] eqn:Hk; simpl;
    [destruct (finishedReading str) eqn:Hfin|..];
    (split; [intros [? ?]; eauto|]; split; [split|]).
  - intros _. by exists str.
  - done.
  - intros Hno. specialize (Hno str eq_refl). congruence.
  - intros [[=] _].
  - intros [str' [[= <-] ?]]. congruence.
  - done.
  - intros [_ ?]. done.
  - intros [str [[=] _]].
  - done.
  - intros [[=] _].
  - intros [str [[=] _]].
  - done.
Qed.

(** ** The congestion gate of [sendPacket] *)

Lemma sendPacket_gate_closed s :
  GetCongestionWindow (world s) < BytesInFlight (world s) ->
  sendPacket s = Ret None s.
Proof.
  intros Hlt. unfold sendPacket, congestionAllowsSending. unfold_M.
  apply N.leb_gt in Hlt. by rewrite Hlt.
Qed.

Lemma new_events_refl s : new_events s s = [].
Proof. unfold new_events. by rewrite drop_all. Qed.

(** C4. When [bytes_in_flight] exceeds the congestion window, [sendPacket]
    returns nil and leaves the whole session, collaborators' store and
    recorded calls included, untouched; and whenever a call of [sendPacket]
    does reach [PackPacket], [bytes_in_flight <= congestion_window] held. *)
Theorem sendPacket_congestion_blocked_is_noop s :
  (GetCongestionWindow (world s) < BytesInFlight (world s) ->
   sendPacket s = Ret None s) /\
  (forall swf controlFrames includeStreamData res,
     EvPackPacket swf controlFrames includeStreamData res
       ∈ new_events s (state_of (sendPacket s)) ->
     BytesInFlight (world s) <= GetCongestionWindow (world s)).
Proof.
  split; [apply sendPacket_gate_closed|].
  intros swf cf b res Hin.
  destruct (N.le_gt_cases (BytesInFlight (world s)) (GetCongestionWindow (world s)))
    as [Hle|Hgt]; [done|].
  rewrite (sendPacket_gate_closed s Hgt) in Hin. simpl in Hin.
  rewrite new_events_refl in Hin. by apply elem_of_nil in Hin.
Qed.

(** ** STREAM frames *)

Lemma isValidStreamID_odd id : isValidStreamID id = N.odd id.
Proof.
  unfold isValidStreamID. rewrite <- N.bit0_mod, N.bit0_odd.
  by destruct (N.odd id).
Qed.

Lemma NewStream_fresh s id str :
  streams s !! id = None ->
  newStream (world s) id = inr str ->
  NewStream id s = Ret (inr str) (set_streams (insert id (Some str)) s).
Proof.
  intros Hid Hnew. unfold NewStream. unfold_M. by rewrite Hnew, Hid.
Qed.

(** C5. [handleStreamFrame] on a STREAM frame for stream [id]: absent and
    even, it returns [errInvalidStreamID] and the session is unchanged;
    absent and odd (and [newStream] making the stream), the stream is put in
    the table, the frame is appended, and the stream callback is the one
    call recorded, made once with the stream as it is after the append, or
    not at all when the append fails, whose error is returned; present but
    nil, it returns [errReopeningStreamsNotAllowed]. *)
Theorem handleStreamFrame_by_table_entry s frame :
  let id := sf_StreamID frame in
  (streams s !! id = None -> N.even id = true ->
   handleStreamFrame frame s = Ret (Some errInvalidStreamID) s) /\
  (forall str, streams s !! id = None -> N.odd id = true ->
     newStream (world s) id = inr str ->
     let err := (stream_AddStreamFrame frame str).1 in
     let str' := (stream_AddStreamFrame frame str).2 in
     handleStreamFrame frame s =
       Ret err
         (log_events (match err with
                      | None => [EvStreamCallback id str']
                      | Some _ => []
                      end)
            (set_streams (insert id (Some str')) s))) /\
  (streams s !! id = Some None ->
   handleStreamFrame frame s = Ret (Some errReopeningStreamsNotAllowed) s).
Proof.
  cbv zeta. split; [|split].
  - intros Hid Heven. unfold handleStreamFrame. unfold_M.
    rewrite Hid, isValidStreamID_odd, <- N.negb_even, Heven. done.
  - intros str Hid Hodd Hnew. unfold handleStreamFrame.
    unfold mbind at 1, M_bind at 1, get. rewrite Hid.
    rewrite isValidStreamID_odd, Hodd. simpl.
    unfold mbind at 1, M_bind at 1. rewrite (NewStream_fresh s _ str Hid Hnew).
    destruct (stream_AddStreamFrame frame str) as [[e|] str'] eqn:Hadd; simpl;
      unfold_M; unfold set_streams, log_events, log_event; simpl;
      rewrite ?insert_insert_eq, ?app_nil_r; done.
  - intros Hid. unfold handleStreamFrame. unfold_M. by rewrite Hid.
Qed.

(** ** WINDOW_UPDATE frames *)

Lemma handleWindowUpdateFrame_connection_level s frame :
  wuf_StreamID frame = 0 ->
  handleWindowUpdateFrame frame s = Ret None s.
Proof. intros Hid. unfold handleWindowUpdateFrame. by rewrite Hid. Qed.

Lemma handleWindowUpdateFrame_absent s frame :
  wuf_StreamID frame <> 0 ->
  streams s !! wuf_StreamID frame = None ->
  handleWindowUpdateFrame frame s = Ret (Some errWindowUpdateOnInvalidStream) s.
Proof.
  intros Hid Hget. unfold handleWindowUpdateFrame.
  apply N.eqb_neq in Hid. rewrite Hid. unfold_M. by rewrite Hget.
Qed.

Lemma handleWindowUpdateFrame_live s frame str :
  wuf_StreamID frame <> 0 ->
  streams s !! wuf_StreamID frame = Some (Some str) ->
  handleWindowUpdateFrame frame s =
    Ret None (set_streams (insert (wuf_StreamID frame)
                (Some (UpdateFlowControlWindow (wuf_ByteOffset frame) str))) s).
Proof.
  intros Hid Hget. unfold handleWindowUpdateFrame.
  apply N.eqb_neq in Hid. rewrite Hid. unfold_M. by rewrite Hget.
Qed.

(** On a tombstoned slot the handler calls [UpdateFlowControlWindow] through
    the nil pointer it has just read from the table. *)
Lemma handleWindowUpdateFrame_tombstoned s frame :
  wuf_StreamID frame <> 0 ->
  tombstoned (wuf_StreamID frame) s ->
  handleWindowUpdateFrame frame s = Panic PanicNilPointerDereference s.
Proof.
  intros Hid Hget. unfold handleWindowUpdateFrame.
  apply N.eqb_neq in Hid. rewrite Hid. unfold_M. by rewrite Hget.
Qed.

(** ** [NewStream] and tombstones *)

(** The guard [s.streams[id] != nil] of [NewStream] does not tell a
    tombstone from an absent key: the retired id gets a live stream again. *)
Lemma NewStream_tombstoned s id str :
  tombstoned id s ->
  newStream (world s) id = inr str ->
  NewStream id s = Ret (inr str) (set_streams (insert id (Some str)) s) /\
  streams (state_of (NewStream id s)) !! id = Some (Some str).
Proof.
  intros Hid Hnew. unfold NewStream. unfold_M. rewrite Hnew, Hid. simpl.
  split; [done|]. apply lookup_insert_eq.
Qed.

(** ** Disposal of the handler's error by [Run] *)

(** C9. The error block of [Run]: [ErrDuplicateOrOutOfOrderAck] (and nil)
    leaves the session as it is, nothing logged and nothing closed;
    [ErrMapAccess] runs [Close(err, true)]; [errRstStreamOnInvalidStream] is
    logged with [utils.Errorf] and nothing else happens; every other error
    runs [Close(err, true)]. *)
Theorem Run_disposeError_by_error s :
  Run_disposeError None s = Ret tt s /\
  Run_disposeError (Some ErrDuplicateOrOutOfOrderAck) s = Ret tt s /\
  Run_disposeError (Some ErrMapAccess) s =
    (Close (Some ErrMapAccess) true;; mret tt) s /\
  Run_disposeError (Some errRstStreamOnInvalidStream) s =
    Ret tt (log_event (EvLog LevelError (LogIgnoringError errRstStreamOnInvalidStream)) s) /\
  forall err,
    err <> ErrDuplicateOrOutOfOrderAck ->
    err <> ErrMapAccess ->
    err <> errRstStreamOnInvalidStream ->
    Run_disposeError (Some err) s = (Close (Some err) true;; mret tt) s.
Proof.
  repeat split; try done.
  intros err Hdup Hmap Hrst. by destruct err.
Qed.

(** Every iteration of [Run] that runs a handler passes the handler's error
    to that block and then collects the finished streams. *)
Lemma Run_iteration_sendingScheduled s :
  closeChan s = 0%nat ->
  sendingScheduled s = true ->
  Run_iteration caseSendingScheduled s =
    Some ((err ← sendPacket;
           Run_disposeError err;;
           garbageCollectStreams;;
           mret LoopContinue) (set_sendingScheduled false s)).
Proof. intros Hc Hs. unfold Run_iteration. by rewrite Hc, Hs. Qed.

Lemma Run_iteration_receivedPackets s p q :
  closeChan s = 0%nat ->
  receivedPackets s = p :: q ->
  Run_iteration caseReceivedPackets s =
    Some ((err ← (err ← handlePacket (remoteAddr p) (publicHeader p) (r p);
                  scheduleSending;;
                  mret err);
           Run_disposeError err;;
           garbageCollectStreams;;
           mret LoopContinue) (set_receivedPackets q s)).
Proof. intros Hc Hq. unfold Run_iteration. by rewrite Hc, Hq. Qed.

Ltac new_events_norm :=
  unfold new_events; simpl; rewrite <- ?app_assoc; rewrite drop_app_length; simpl.

Lemma Close_closed s e sendConnectionClose :
  closed s = true -> Close e sendConnectionClose s = Ret None s.
Proof. intros Hc. unfold Close. unfold_M. by rewrite Hc. Qed.

(** ** Packets that do not unpack *)

Lemma isDecryptionFailure_true err :
  isDecryptionFailure err = true <->
  exists message, err = QuicError QUIC_DECRYPTION_FAILURE message.
Proof.
  split.
  - destruct err; simpl; try discriminate.
    intros ->%N.eqb_eq. eauto.
  - intros [message ->]. simpl. apply N.eqb_refl.
Qed.

(** C2, as the code has it.  When the unpacker fails, [handlePacket] has
    already stored the reconstructed packet number in [lastRcvdPacketNumber]
    and handed the remote address to the connection; besides that and the
    two log lines nothing happens: the packet is not registered with the
    receive-ack engine, no frame is dispatched, and the stream table, the
    closed flag and the channels are as before.  The call returns nil when
    the error is a [QuicError] of code [QUIC_DECRYPTION_FAILURE], and the
    unpacker's error otherwise. *)
Theorem handlePacket_unpack_error s remoteAddr publicHeader r err :
  let pn := InferPacketNumber (ph_PacketNumberLen publicHeader)
              (lastRcvdPacketNumber s) (ph_PacketNumber publicHeader) in
  let hdr := mkPublicHeader (ph_Raw publicHeader) (ph_ConnectionID publicHeader)
               (ph_PacketNumberLen publicHeader) pn in
  let unpacked := Unpack (ph_Raw hdr) hdr r
                    (conn_setCurrentRemoteAddr remoteAddr (world s)) in
  let before_unpack :=
    [EvLog LevelDebug
       (LogReadingPacket pn (N.of_nat (length r)) (ph_ConnectionID publicHeader));
     EvSetCurrentRemoteAddr remoteAddr;
     EvUnpack hdr r (inl err)] in
  let s1 := set_world unpacked.2 (set_lastRcvdPacketNumber pn s) in
  unpacked.1 = inl err ->
  ((exists message, err = QuicError QUIC_DECRYPTION_FAILURE message) ->
   handlePacket remoteAddr publicHeader r s =
     Ret None (log_events (before_unpack ++ [EvLog LevelInfo LogDiscardingPacket]) s1)) /\
  ((forall message, err <> QuicError QUIC_DECRYPTION_FAILURE message) ->
   handlePacket remoteAddr publicHeader r s =
     Ret (Some err) (log_events before_unpack s1)).
Proof.
  cbv zeta. intros Hunpack.
  unfold handlePacket. unfold_M. simpl.
  destruct (Unpack _ _ _ _) as [res w2]. simpl in *. subst res.
  destruct (isDecryptionFailure err) eqn:Hdf.
  - split.
    + intros _. simpl. unfold log_events, log_event, set_world; simpl.
      by rewrite <- !app_assoc.
    + intros Hne. apply isDecryptionFailure_true in Hdf as [message ->].
      by destruct (Hne message).
  - split.
    + intros Hex. apply isDecryptionFailure_true in Hex. congruence.
    + intros _. unfold log_events, log_event, set_world; simpl.
      by rewrite <- !app_assoc.
Qed.

(** ** Accounting of sent packets *)

Lemma log_events_nil s : log_events [] s = s.
Proof. destruct s. unfold log_events. simpl. by rewrite app_nil_r. Qed.

Lemma logSentFrames_eq fs s :
  logSentFrames fs s =
    Ret tt (log_events (map (fun f => EvLog LevelDebug (LogSentFrame f)) fs) s).
Proof.
  revert s. induction fs as [|f fs IH]; intros s; simpl.
  - by rewrite log_events_nil.
  - unfold_M. simpl. rewrite IH. unfold log_events, log_event. simpl.
    by rewrite <- app_assoc.
Qed.

Lemma AddHighPrioStreamFrames_eq fs s :
  AddHighPrioStreamFrames fs s =
    Ret tt (log_events (map EvAddHighPrioStreamFrame fs)
              (set_world (foldl (fun w f => AddHighPrioStreamFrame f w) (world s) fs) s)).
Proof.
  revert s. induction fs as [|f fs IH]; intros s; simpl.
  - rewrite log_events_nil. by destruct s.
  - unfold_M. simpl. rewrite IH. unfold log_events, log_event, set_world. simpl.
    by rewrite <- app_assoc.
Qed.

Lemma filter_sentAccounting_logSentFrames (fs : list Frame) :
  List.filter sentAccounting
    (map (fun f => EvLog (stream := stream) LevelDebug (LogSentFrame f)) fs) = [].
Proof. by induction fs. Qed.

Lemma filter_sentAccounting_AddHighPrio (fs : list StreamFrame) :
  List.filter sentAccounting
    (map (EvAddHighPrioStreamFrame (stream := stream)) fs) = [].
Proof. by induction fs. Qed.

Ltac accounting_norm :=
  unfold new_events; simpl; rewrite <- ?app_assoc; rewrite drop_app_length;
  rewrite ?List.filter_app, ?filter_sentAccounting_logSentFrames,
    ?filter_sentAccounting_AddHighPrio; simpl.

Ltac accepted packet t :=
  right; right;
  exists (mkPacket (pp_number packet) (pp_frames packet) (pp_entropyBit packet)
            (N.of_nat (length (pp_raw packet)))), t;
  eexists; by accounting_norm.

(** The accounting calls of one [sendPacket]: none; or a refused
    [SentPacket], whose error is returned; or an accepted [SentPacket]
    followed by the [OnPacketSent] of the same packet. *)
Lemma sendPacket_accounting s :
  List.filter sentAccounting (new_events s (state_of (sendPacket s))) = [] \/
  (exists p e,
     List.filter sentAccounting (new_events s (state_of (sendPacket s)))
       = [EvSentPacket p (Some e)] /\
     sendPacket s = Ret (Some e) (state_of (sendPacket s))) \/
  (exists p t bif,
     List.filter sentAccounting (new_events s (state_of (sendPacket s)))
       = [EvSentPacket p None;
          EvOnPacketSent t bif (pkt_PacketNumber p) (pkt_Length p) true]).
Proof.
  unfold sendPacket, congestionAllowsSending, scheduleSending. unfold_M. simpl.
  destruct (BytesInFlight (world s) <=? GetCongestionWindow (world s)); simpl;
    [|left; by rewrite new_events_refl].
  destruct (DequeuePacketForRetransmission (world s)) as [[p|] w1]; simpl.
  - rewrite AddHighPrioStreamFrames_eq. simpl.
    destruct (GetStopWaitingFrame _) as [swf w2]; simpl.
    destruct (DequeueAckFrame _) as [[ack [e|]] w3]; simpl;
      [left; by accounting_norm|].
    destruct (PackPacket _ _ _ _) as [[[packet|] [e|]] w4]; simpl;
      try (left; by accounting_norm).
    destruct (SentPacket _ _) as [[e|] w5]; simpl.
    + right; left. eexists _, e. split; [by accounting_norm|done].
    + destruct (time_Now _) as [t w6]; simpl.
      rewrite logSentFrames_eq. simpl.
      destruct (conn_write _ _) as [[e|] w7]; simpl.
      * accepted packet t.
      * destruct (negb (Empty _)); simpl;
          [destruct (sendingScheduled s)|]; simpl;
          accepted packet t.
  - destruct (GetStopWaitingFrame _) as [swf w2]; simpl.
    destruct (DequeueAckFrame _) as [[ack [e|]] w3]; simpl;
      [left; by accounting_norm|].
    destruct (PackPacket _ _ _ _) as [[[packet|] [e|]] w4]; simpl;
      try (left; by accounting_norm).
    destruct (SentPacket _ _) as [[e|] w5]; simpl.
    + right; left. eexists _, e. split; [by accounting_norm|done].
    + destruct (time_Now _) as [t w6]; simpl.
      rewrite logSentFrames_eq. simpl.
      destruct (conn_write _ _) as [[e|] w7]; simpl.
      * accepted packet t.
      * destruct (negb (Empty _)); simpl;
          [destruct (sendingScheduled s)|]; simpl;
          accepted packet t.
Qed.

Lemma elem_of_filter_sentAccounting (ev : Event stream) (l : list (Event stream)) :
  ev ∈ List.filter sentAccounting l <-> ev ∈ l /\ sentAccounting ev = true.
Proof. rewrite !list_elem_of_In. apply List.filter_In. Qed.

(** C6. Among the calls of one [sendPacket], [OnPacketSent] is made for a
    packet (number and length) exactly when [SentPacket] was made for that
    packet and returned nil; and when [SentPacket] returns an error,
    [sendPacket] returns that error and [OnPacketSent] is not called. *)
Theorem sendPacket_OnPacketSent_iff_SentPacket_accepted s :
  let s' := state_of (sendPacket s) in
  (forall pn len,
     (exists t bif retransmittable,
        EvOnPacketSent t bif pn len retransmittable ∈ new_events s s') <->
     (exists p,
        EvSentPacket p None ∈ new_events s s' /\
        pkt_PacketNumber p = pn /\ pkt_Length p = len)) /\
  (forall p e,
     EvSentPacket p (Some e) ∈ new_events s s' ->
     sendPacket s = Ret (Some e) s' /\
     forall t bif pn len retransmittable,
       EvOnPacketSent t bif pn len retransmittable ∉ new_events s s').
Proof.
  cbv zeta.
  assert (forall ev, sentAccounting ev = true ->
            ev ∈ new_events s (state_of (sendPacket s)) <->
            ev ∈ List.filter sentAccounting (new_events s (state_of (sendPacket s))))
    as Hacc.
  { intros ev Hev. rewrite elem_of_filter_sentAccounting. tauto. }
  destruct (sendPacket_accounting s)
    as [Hnone | [(p0 & e0 & Herr & Hret) | (p0 & t0 & bif0 & Hok)]].
  - split.
    + intros pn len. split.
      * intros (t & bif & b & Hin). apply Hacc in Hin; [|done].
        rewrite Hnone in Hin. by apply elem_of_nil in Hin.
      * intros (p & Hin & _). apply Hacc in Hin; [|done].
        rewrite Hnone in Hin. by apply elem_of_nil in Hin.
    + intros p e Hin. apply Hacc in Hin; [|done].
      rewrite Hnone in Hin. by apply elem_of_nil in Hin.
  - split.
    + intros pn len. split.
      * intros (t & bif & b & Hin). apply Hacc in Hin; [|done].
        rewrite Herr in Hin. apply list_elem_of_singleton in Hin. discriminate.
      * intros (p & Hin & _). apply Hacc in Hin; [|done].
        rewrite Herr in Hin. apply list_elem_of_singleton in Hin. discriminate.
    + intros p e Hin. apply Hacc in Hin; [|done].
      rewrite Herr in Hin. apply list_elem_of_singleton in Hin.
      injection Hin as -> ->. split; [done|].
      intros t bif pn len b Hin. apply Hacc in Hin; [|done].
      rewrite Herr in Hin. apply list_elem_of_singleton in Hin. discriminate.
  - split.
    + intros pn len. split.
      * intros (t & bif & b & Hin). apply Hacc in Hin; [|done].
        rewrite Hok in Hin.
        apply elem_of_cons in Hin as [Hin|Hin]; [discriminate|].
        apply list_elem_of_singleton in Hin. injection Hin as -> -> -> -> ->.
        exists p0. split; [|done]. apply Hacc; [done|]. rewrite Hok. left.
      * intros (p & Hin & <- & <-). apply Hacc in Hin; [|done].
        rewrite Hok in Hin.
        apply elem_of_cons in Hin as [Hin|Hin];
          [|apply list_elem_of_singleton in Hin; discriminate].
        injection Hin as ->. exists t0, bif0, true.
        apply Hacc; [done|]. rewrite Hok. right. left.
    + intros p e Hin. apply Hacc in Hin; [|done].
      rewrite Hok in Hin.
      apply elem_of_cons in Hin as [Hin|Hin]; [discriminate|].
      apply list_elem_of_singleton in Hin. discriminate.
Qed.

(** ** What every method keeps: tombstones and the close channel *)

Lemma evolves_refl s : evolves s s.
Proof. by repeat split. Qed.

Lemma evolves_trans s1 s2 s3 : evolves s1 s2 -> evolves s2 s3 -> evolves s1 s3.
Proof. intros (Ha & Hb & Hc) (Hd & He & Hf). repeat split; eauto. Qed.

Lemma evolves_same_flags s s' :
  closed s' = closed s ->
  closeChan s' = closeChan s ->
  (forall k, tombstoned k s -> tombstoned k s') ->
  evolves s s'.
Proof.
  intros Hclosed Hchan Htomb. split; [done|]. unfold closeChan_ok.
  rewrite Hclosed, Hchan. by split.
Qed.

Lemma evolves_bind {A B : Type} (m : M A) (f : A -> M B) s :
  evolves s (state_of (m s)) ->
  (forall a s', m s = Ret a s' -> evolves s' (state_of (f a s'))) ->
  evolves s (state_of ((m ≫= f) s)).
Proof.
  intros Hm Hf. unfold mbind, M_bind.
  destruct (m s) as [a s'| |] eqn:Hms; simpl in *; [|done..].
  eapply evolves_trans; [exact Hm|]. by apply Hf.
Qed.

(** The goal [evolves s s'] when [s'] has the table, the flag and the close
    channel of [s]. *)
Ltac same_core :=
  apply evolves_same_flags; [reflexivity | reflexivity | intros ?k ?Hk; exact Hk].

Ltac exec :=
  repeat (simpl; rewrite ?AddHighPrioStreamFrames_eq, ?logSentFrames_eq; simpl;
          match goal with
          | |- context [match ?x with _ => _ end] =>
              lazymatch x with
              | context [match _ with _ => _ end] => fail
              | _ => destruct x eqn:?
              end
          end).

Lemma evolves_insert s id v :
  streams s !! id <> Some None ->
  evolves s (set_streams (insert id v) s).
Proof.
  intros Hid. apply evolves_same_flags; [done..|].
  intros k Hk. unfold tombstoned in *. simpl.
  rewrite lookup_insert_ne; [done|]. intros ->. done.
Qed.

Lemma evolves_range_streams s
    (body : N -> option stream -> gmap N (option stream) -> gmap N (option stream))
    (g : option stream -> option stream) :
  g None = None ->
  (forall k v m', m' !! k = Some v -> body k v m' = <[k := g v]> m') ->
  evolves s (set_streams (range_streams body) s).
Proof.
  intros Hg Hbody. apply evolves_same_flags; [done..|].
  intros k Hk. unfold tombstoned in *. simpl.
  rewrite (range_streams_lookup g) by done. by rewrite Hk; simpl; rewrite Hg.
Qed.

Lemma garbageCollectStreams_evolves s :
  evolves s (state_of (garbageCollectStreams s)).
Proof.
  apply (evolves_range_streams s _ gc_entry); [done|].
  intros k v m' Hk. destruct v as [str|]; simpl.
  - destruct (finishedReading str); [done|]. by rewrite insert_id.
  - by rewrite insert_id.
Qed.

Lemma closeStreamsWithError_evolves s err :
  evolves s (state_of (closeStreamsWithError err s)).
Proof.
  apply (evolves_range_streams s _ (fmap (RegisterError err))); [done|].
  intros k v m' Hk. destruct v as [str|]; simpl; [done|]. by rewrite insert_id.
Qed.

(** [NewStream] keeps the tombstones when the id it is given is absent, as
    it is where the session itself calls it. *)
Lemma NewStream_absent_evolves s id :
  streams s !! id = None ->
  evolves s (state_of (NewStream id s)).
Proof.
  intros Hid. unfold NewStream. unfold_M. rewrite Hid.
  destruct (newStream (world s) id); simpl; [apply evolves_refl|].
  apply evolves_insert. by rewrite Hid.
Qed.

Lemma handleStreamFrame_evolves s frame :
  evolves s (state_of (handleStreamFrame frame s)).
Proof.
  unfold handleStreamFrame, NewStream. unfold_M. simpl.
  destruct (streams s !! sf_StreamID frame) as [[str|]|] eqn:Hid; simpl.
  - destruct (stream_AddStreamFrame frame str) as [[e|] str']; simpl;
      (apply evolves_same_flags; [done..|]); intros k Hk; unfold tombstoned in *; simpl;
      (rewrite lookup_insert_ne; [done|]; intros Heq; congruence).
  - apply evolves_refl.
  - destruct (negb (isValidStreamID _)); simpl; [apply evolves_refl|].
    destruct (newStream _ _) as [e|str]; simpl; [apply evolves_refl|].
    rewrite Hid. simpl.
    destruct (stream_AddStreamFrame frame str) as [[e|] str']; simpl;
      (apply evolves_same_flags; [done..|]); intros k Hk; unfold tombstoned in *; simpl;
      (rewrite !lookup_insert_ne; [done|intros Heq; congruence..]).
Qed.

Lemma handleWindowUpdateFrame_evolves s frame :
  evolves s (state_of (handleWindowUpdateFrame frame s)).
Proof.
  unfold handleWindowUpdateFrame. unfold_M.
  destruct (wuf_StreamID frame =? 0); simpl; [apply evolves_refl|].
  destruct (streams s !! wuf_StreamID frame) as [[str|]|] eqn:Hid; simpl;
    [|apply evolves_refl..].
  apply evolves_insert. by rewrite Hid.
Qed.

Lemma handleRstStreamFrame_evolves s frame :
  evolves s (state_of (handleRstStreamFrame frame s)).
Proof.
  unfold handleRstStreamFrame. unfold_M. simpl.
  destruct (streams s !! rsf_StreamID frame) as [[str|]|] eqn:Hid; simpl;
    [|apply evolves_refl..].
  apply evolves_insert. by rewrite Hid.
Qed.

Lemma handleAckFrame_evolves s frame :
  evolves s (state_of (handleAckFrame frame s)).
Proof. unfold handleAckFrame. unfold_M. exec; same_core. Qed.

Lemma sendPacket_evolves s :
  evolves s (state_of (sendPacket s)).
Proof.
  unfold sendPacket, congestionAllowsSending, scheduleSending. unfold_M.
  exec; same_core.
Qed.

Lemma scheduleSending_evolves s : evolves s (state_of (scheduleSending s)).
Proof. unfold scheduleSending. unfold_M. exec; same_core. Qed.

Lemma QueueStreamFrame_evolves s frame :
  evolves s (state_of (QueueStreamFrame frame s)).
Proof. unfold QueueStreamFrame, scheduleSending. unfold_M. exec; same_core. Qed.

Lemma HandlePacket_evolves s a hdr payload :
  evolves s (state_of (HandlePacket a hdr payload s)).
Proof. unfold HandlePacket. unfold_M. exec; same_core. Qed.

Lemma Close_evolves s e sendConnectionClose :
  evolves s (state_of (Close e sendConnectionClose s)).
Proof.
  split; [|split].
  - intros k Hk. unfold Close, send_closeChan, sendPublicReset. unfold_M. simpl.
    destruct (closed s); simpl; [done|].
    destruct (decide _); simpl; [|done].
    destruct sendConnectionClose; simpl; [|done].
    set (e' := match e with Some e0 => e0 | None => _ end).
    pose proof (closeStreamsWithError_evolves s e') as [Htomb _].
    specialize (Htomb k Hk). unfold closeStreamsWithError, modify in Htomb.
    simpl in Htomb. exec; exact Htomb.
  - intros Hok Hopen. exfalso. revert Hopen.
    unfold Close, send_closeChan, sendPublicReset, closeStreamsWithError. unfold_M.
    simpl. destruct (closed s) eqn:Hclosed; simpl; [by rewrite Hclosed|].
    rewrite (Hok Hclosed). simpl. exec; done.
  - intros Hclosed. by rewrite Close_closed.
Qed.

Lemma handleFrame_evolves s ff : evolves s (state_of (handleFrame ff s)).
Proof.
  destruct ff; simpl.
  - apply evolves_bind; [same_core|]. intros [] s' [= <-].
    eapply evolves_trans; [|apply handleStreamFrame_evolves]. same_core.
  - apply handleAckFrame_evolves.
  - apply evolves_bind; [same_core|]. intros [] s' [= <-].
    apply evolves_bind; [|intros; apply evolves_refl].
    eapply evolves_trans; [|apply Close_evolves]. same_core.
  - unfold_M. exec; same_core.
  - apply evolves_bind; [apply handleRstStreamFrame_evolves|].
    intros a s' _. unfold_M. same_core.
  - apply evolves_bind; [same_core|]. intros [] s' [= <-].
    eapply evolves_trans; [|apply handleWindowUpdateFrame_evolves]. same_core.
  - unfold_M. same_core.
  - unfold_M. same_core.
  - apply evolves_refl.
Qed.

Lemma handleFrames_evolves fs s : evolves s (state_of (handleFrames fs s)).
Proof.
  revert s. induction fs as [|ff fs IH]; intros s; simpl; [apply evolves_refl|].
  apply evolves_bind; [apply handleFrame_evolves|].
  intros [e|] s' _; [apply evolves_refl|apply IH].
Qed.

Lemma handlePacket_evolves s a hdr payload :
  evolves s (state_of (handlePacket a hdr payload s)).
Proof.
  unfold handlePacket. unfold_M. simpl.
  destruct (Unpack _ _ _ _) as [[e|packet] w']; simpl.
  - destruct (isDecryptionFailure e); simpl; same_core.
  - eapply evolves_trans; [|apply handleFrames_evolves]. same_core.
Qed.

Lemma Run_disposeError_evolves s err :
  evolves s (state_of (Run_disposeError err s)).
Proof.
  destruct err as [[]|]; simpl;
    try (apply evolves_bind; [apply Close_evolves|intros; apply evolves_refl]);
    try apply evolves_refl.
  unfold_M. same_core.
Qed.

(** Every iteration of the event loop keeps the tombstones, the close
    channel's invariant and the closed flag once it is set. *)
Lemma Run_iteration_evolves s c o :
  Run_iteration c s = Some o -> evolves s (state_of o).
Proof.
  assert (forall (handler : M (option error)) s0,
            evolves s0 (state_of (handler s0)) ->
            evolves s0 (state_of
              ((err ← handler; Run_disposeError err;; garbageCollectStreams;;
                mret LoopContinue) s0))) as Hfinish.
  { intros handler s0 Hh. apply evolves_bind; [done|]. intros err s1 _.
    apply evolves_bind; [apply Run_disposeError_evolves|]. intros [] s2 _.
    apply evolves_bind; [apply garbageCollectStreams_evolves|].
    intros; apply evolves_refl. }
  unfold Run_iteration. destruct (closeChan s) as [|n] eqn:Hchan.
  - destruct c; [done|..].
    + destruct (receivedPackets s) as [|p q]; [done|]. intros [= <-].
      eapply evolves_trans; [|apply Hfinish].
      * same_core.
      * apply evolves_bind; [apply handlePacket_evolves|]. intros err s1 _.
        apply evolves_bind; [apply scheduleSending_evolves|].
        intros; apply evolves_refl.
    + destruct (sendingScheduled s); [|done]. intros [= <-].
      eapply evolves_trans; [|apply Hfinish; apply sendPacket_evolves]. same_core.
    + intros [= <-]. apply Hfinish.
      apply evolves_bind; [apply Close_evolves|intros; apply evolves_refl].
  - intros [= <-]. simpl. split; [intros k Hk; exact Hk|]. split; [|done].
    intros Hok Hopen. specialize (Hok Hopen). congruence.
Qed.

(** A new session has no tombstone and an empty close channel. *)
Lemma NewSession_closeChan_ok (w : W) (cid : ConnectionID) :
  closeChan_ok (NewSession w cid) /\ forall k, ~ tombstoned k (NewSession w cid).
Proof.
  unfold NewSession, NewStream. unfold_M. simpl. rewrite lookup_empty. simpl.
  destruct (newStream w 1); simpl; (split; [done|]); intros k; unfold tombstoned; simpl.
  - by rewrite lookup_empty.
  - destruct (decide (k = 1)) as [->|Hne].
    + by rewrite lookup_insert_eq.
    + rewrite lookup_insert_ne by done. by rewrite lookup_empty.
Qed.

(** In every session history the close channel is empty until [Close]
    runs. *)
Lemma reachable_closeChan_ok s : reachable s -> closeChan_ok s.
Proof.
  induction 1 as [w cid|s c o _ IH Hrun|s a hdr payload _ IH|s e b _ IH
                 |s frame _ IH|s id _ IH|s id f _ IH].
  - apply NewSession_closeChan_ok.
  - by apply (Run_iteration_evolves s c o Hrun).
  - by apply (HandlePacket_evolves s a hdr payload).
  - by apply (Close_evolves s e b).
  - by apply (QueueStreamFrame_evolves s frame).
  - revert IH. unfold NewStream. unfold_M. exec; done.
  - exact IH.
Qed.

(** ** [Close] *)

(** C7. In every session history, the call of [Close] that finds the flag
    false sets the flag, puts one signal on the close channel and calls the
    close callback once, with the connection id; it leaves a session on
    which every further call, whatever its arguments, returns nil and
    changes nothing. *)
Theorem Close_idempotent s e sendConnectionClose :
  reachable s ->
  closed s = false ->
  let s1 := state_of (Close e sendConnectionClose s) in
  closed s1 = true /\
  closeChan s1 = 1%nat /\
  List.filter isCloseCallback (new_events s s1) = [EvCloseCallback (connectionID s)] /\
  forall e' sendConnectionClose', Close e' sendConnectionClose' s1 = Ret None s1.
Proof.
  intros Hreach Hclosed. cbv zeta.
  pose proof (reachable_closeChan_ok s Hreach Hclosed) as Hchan.
  assert (closed (state_of (Close e sendConnectionClose s)) = true /\
          closeChan (state_of (Close e sendConnectionClose s)) = 1%nat /\
          List.filter isCloseCallback
            (new_events s (state_of (Close e sendConnectionClose s)))
          = [EvCloseCallback (connectionID s)]) as (H1 & H2 & H3).
  { unfold Close, send_closeChan, sendPublicReset, closeStreamsWithError. unfold_M.
    rewrite Hclosed. simpl. rewrite Hchan. simpl.
    destruct sendConnectionClose; simpl.
    - destruct (errorCode_of _ =? QUIC_DECRYPTION_FAILURE); simpl.
      + destruct (conn_write _ _) as [res w']. simpl.
        repeat split; try done. by new_events_norm.
      + destruct (PackPacket _ _ _ _) as [[[packet|] [err|]] w']; simpl;
          try (repeat split; try done; by new_events_norm).
        destruct (conn_write _ _) as [res w'']. simpl.
        repeat split; try done. by new_events_norm.
    - repeat split; try done. by new_events_norm. }
  repeat split; try done.
  intros e' b'. by apply Close_closed.
Qed.

(** C8, as the code has it.  In every session history, [Close(e, true)]
    with [e] a [QuicError] of code [QUIC_DECRYPTION_FAILURE], on a session
    that is not yet closed: after the close callback and the two log lines
    the one remaining call is a [write] of the public reset packet made of
    the session's connection id, its last received packet number and a zero
    nonce proof; the result of that write is returned, and the packer is
    never asked for a CONNECTION_CLOSE packet. *)
Theorem Close_decryption_failure_sends_public_reset s message :
  reachable s ->
  closed s = false ->
  let e := QuicError QUIC_DECRYPTION_FAILURE message in
  let reset := publicResetPacket_Write
                 (mkPublicResetPacket (connectionID s) (lastRcvdPacketNumber s) 0) in
  let res := (conn_write reset (world s)).1 in
  let s1 := state_of (Close (Some e) true s) in
  Close (Some e) true s = Ret res s1 /\
  new_events s s1 =
    [EvCloseCallback (connectionID s);
     EvLog LevelError (LogClosingSession e);
     EvLog LevelInfo (LogSendingPublicReset (connectionID s) (lastRcvdPacketNumber s));
     EvWrite reset res] /\
  (forall swf controlFrames includeStreamData r,
     EvPackPacket swf controlFrames includeStreamData r ∉ new_events s s1).
Proof.
  intros Hreach Hclosed. cbv zeta.
  pose proof (reachable_closeChan_ok s Hreach Hclosed) as Hchan.
  assert (Close (Some (QuicError QUIC_DECRYPTION_FAILURE message)) true s =
            Ret (conn_write (publicResetPacket_Write
                   (mkPublicResetPacket (connectionID s) (lastRcvdPacketNumber s) 0))
                   (world s)).1
                (state_of (Close (Some (QuicError QUIC_DECRYPTION_FAILURE message)) true s)) /\
          new_events s
            (state_of (Close (Some (QuicError QUIC_DECRYPTION_FAILURE message)) true s)) =
          [EvCloseCallback (connectionID s);
           EvLog LevelError (LogClosingSession (QuicError QUIC_DECRYPTION_FAILURE message));
           EvLog LevelInfo (LogSendingPublicReset (connectionID s) (lastRcvdPacketNumber s));
           EvWrite (publicResetPacket_Write
                      (mkPublicResetPacket (connectionID s) (lastRcvdPacketNumber s) 0))
                   (conn_write (publicResetPacket_Write
                      (mkPublicResetPacket (connectionID s) (lastRcvdPacketNumber s) 0))
                      (world s)).1]) as [H1 H2].
  { unfold Close, send_closeChan, sendPublicReset, closeStreamsWithError. unfold_M.
    rewrite Hclosed. simpl. rewrite Hchan. simpl.
    rewrite N.eqb_refl. simpl.
    destruct (conn_write _ _) as [res w']. simpl.
    split; [done|]. by new_events_norm. }
  split; [done|]. split; [done|].
  intros swf cf b r0 Hin. rewrite H2 in Hin.
  repeat (apply elem_of_cons in Hin as [Hin|Hin]; [discriminate Hin|]).
  by apply elem_of_nil in Hin.
Qed.

(** * Further properties of the methods *)

(** ** [sendPacket]: what it calls and what it leaves alone *)

Lemma filter_map_nil {A : Type} (P : Event stream -> bool) (g : A -> Event stream)
    (l : list A) :
  (forall x, P (g x) = false) -> List.filter P (map g l) = [].
Proof. intros Hg. induction l as [|x l IH]; simpl; [done|]. by rewrite Hg. Qed.

Lemma filter_sendPipeline_AddHighPrio (fs : list StreamFrame) :
  List.filter sendPipeline (map (EvAddHighPrioStreamFrame (stream := stream)) fs) = [].
Proof. by apply filter_map_nil. Qed.

Lemma filter_sendPipeline_logSentFrames (fs : list Frame) :
  List.filter sendPipeline
    (map (fun f => EvLog (stream := stream) LevelDebug (LogSentFrame f)) fs) = [].
Proof. by apply filter_map_nil. Qed.

Lemma filter_packInputs_AddHighPrio (fs : list StreamFrame) :
  List.filter packInputs (map (EvAddHighPrioStreamFrame (stream := stream)) fs) = [].
Proof. by apply filter_map_nil. Qed.

Lemma filter_packInputs_logSentFrames (fs : list Frame) :
  List.filter packInputs
    (map (fun f => EvLog (stream := stream) LevelDebug (LogSentFrame f)) fs) = [].
Proof. by apply filter_map_nil. Qed.

Ltac filter_norm :=
  unfold new_events; simpl; rewrite <- ?app_assoc; rewrite drop_app_length;
  rewrite ?List.filter_app;
  rewrite ?filter_sendPipeline_AddHighPrio, ?filter_sendPipeline_logSentFrames,
    ?filter_packInputs_AddHighPrio, ?filter_packInputs_logSentFrames; simpl.

(** X1. Whatever the collaborators answer, [sendPacket] returns (it neither
    panics nor blocks), only adds to the recorded calls, never clears a
    pending send signal, and leaves the stream table, the closed flag, the
    close channel, the ingress queue, the last received packet number and the
    connection id as they were. *)
Theorem sendPacket_frame s :
  let s' := state_of (sendPacket s) in
  (exists res, sendPacket s = Ret res s') /\
  (exists evs, trace s' = trace s ++ evs) /\
  (sendingScheduled s = true -> sendingScheduled s' = true) /\
  streams s' = streams s /\
  closed s' = closed s /\
  closeChan s' = closeChan s /\
  receivedPackets s' = receivedPackets s /\
  lastRcvdPacketNumber s' = lastRcvdPacketNumber s /\
  connectionID s' = connectionID s.
Proof.
  cbv zeta. unfold sendPacket, congestionAllowsSending, scheduleSending. unfold_M.
  exec;
    (split; [by eexists|]);
    (split; [first [by exists []; rewrite app_nil_r
                   | eexists; simpl; rewrite <- ?app_assoc; reflexivity]|]);
    repeat split; done.
Qed.

(** X2. The calls that get a packet out in one [sendPacket] are a prefix of
    one pipeline for one packet: at most one [PackPacket], always asked to
    include stream data; [SentPacket] only for the packet the packer
    returned, with the length of its raw bytes; [OnPacketSent] and the
    [write] of those raw bytes only after [SentPacket] accepted it. *)
Theorem sendPacket_pipeline s :
  let pipeline :=
    List.filter sendPipeline (new_events s (state_of (sendPacket s))) in
  pipeline = [] \/
  (exists swf controlFrames res,
     pipeline = [EvPackPacket swf controlFrames true res] /\
     (res.1 = None \/ res.2 <> None)) \/
  (exists swf controlFrames packet e,
     pipeline = [EvPackPacket swf controlFrames true (Some packet, None);
                 EvSentPacket (sentPacketOf packet) (Some e)]) \/
  (exists swf controlFrames packet t bif res,
     pipeline = [EvPackPacket swf controlFrames true (Some packet, None);
                 EvSentPacket (sentPacketOf packet) None;
                 EvOnPacketSent t bif (pp_number packet)
                   (N.of_nat (length (pp_raw packet))) true;
                 EvWrite (pp_raw packet) res]).
Proof.
  cbv zeta. unfold sendPacket, congestionAllowsSending, scheduleSending. unfold_M.
  simpl.
  destruct (BytesInFlight (world s) <=? GetCongestionWindow (world s)); simpl;
    [|left; by rewrite new_events_refl].
  destruct (DequeuePacketForRetransmission (world s)) as [[p|] w1]; simpl;
    rewrite ?AddHighPrioStreamFrames_eq; simpl;
    destruct (GetStopWaitingFrame _) as [swf w2]; simpl;
    (destruct (DequeueAckFrame _) as [[ack [e|]] w3]; simpl;
       [left; by filter_norm|]);
    (destruct (PackPacket _ _ _ _) as [[[packet|] [e|]] w4]; simpl;
       [right; left; eexists _, _, _; split; [by filter_norm|by right]
       | |right; left; eexists _, _, _; split; [by filter_norm|by left]
       |right; left; eexists _, _, _; split; [by filter_norm|by left]]);
    (destruct (SentPacket _ _) as [[e|] w5]; simpl;
       [right; right; left; eexists _, _, packet, e; by filter_norm|]);
    destruct (time_Now _) as [t w6]; simpl;
    rewrite logSentFrames_eq; simpl;
    (destruct (conn_write _ _) as [[e|] w7]; simpl;
       [|destruct (negb (Empty _)); simpl;
           [destruct (sendingScheduled s)|]; simpl]);
    right; right; right; eexists _, _, packet, t, _, _; by filter_norm.
Qed.

Ltac packed :=
  right; right;
  match goal with
  | |- context [EvDequeuePacketForRetransmission ?rp] =>
      match goal with
      | |- context [EvDequeueAckFrame (?a, None)] =>
          match goal with
          | |- context [EvGetStopWaitingFrame ?swf] =>
              exists rp, swf, a; eexists; filter_norm;
              unfold controlFramesOf; simpl; rewrite ?app_nil_r; reflexivity
          end
      end
  end.

(** X3. What [sendPacket] packs: the calls that feed the packer are made in
    the order retransmission, stop-waiting, ACK; an error of
    [DequeueAckFrame] ends the call before [PackPacket]; otherwise
    [PackPacket] gets the stop-waiting frame just read and, as control
    frames, those of the retransmitted packet followed by the ACK frame. *)
Theorem sendPacket_packs_retransmission_then_ack s :
  let inputs :=
    List.filter packInputs (new_events s (state_of (sendPacket s))) in
  inputs = [] \/
  (exists retransmitPacket swf ack e,
     inputs = [EvDequeuePacketForRetransmission retransmitPacket;
               EvGetStopWaitingFrame swf;
               EvDequeueAckFrame (ack, Some e)] /\
     sendPacket s = Ret (Some e) (state_of (sendPacket s))) \/
  (exists retransmitPacket swf ack res,
     inputs = [EvDequeuePacketForRetransmission retransmitPacket;
               EvGetStopWaitingFrame swf;
               EvDequeueAckFrame (ack, None);
               EvPackPacket swf (controlFramesOf retransmitPacket ack) true res]).
Proof.
  cbv zeta. unfold sendPacket, congestionAllowsSending, scheduleSending. unfold_M.
  simpl.
  destruct (BytesInFlight (world s) <=? GetCongestionWindow (world s)); simpl;
    [|left; by rewrite new_events_refl].
  destruct (DequeuePacketForRetransmission (world s)) as [[p|] w1]; simpl;
    rewrite ?AddHighPrioStreamFrames_eq; simpl;
    destruct (GetStopWaitingFrame _) as [swf w2]; simpl;
    (destruct (DequeueAckFrame _) as [[[ack|] [e|]] w3]; simpl;
       [right; left; eexists _, _, _, e; split; [by filter_norm|done]
       | |right; left; eexists _, _, _, e; split; [by filter_norm|done]|]);
    (destruct (PackPacket _ _ _ _) as [[[packet|] [e|]] w4]; simpl;
       [packed| |packed|packed]);
    (destruct (SentPacket _ _) as [[e|] w5]; simpl; [packed|]);
    destruct (time_Now _) as [t w6]; simpl;
    rewrite logSentFrames_eq; simpl;
    (destruct (conn_write _ _) as [[e|] w7]; simpl;
       [|destruct (negb (Empty _)); simpl;
           [destruct (sendingScheduled s)|]; simpl]);
    packed.
Qed.

(** ** The stream table *)

(** X4. [closeStreamsWithError] registers the error on every live stream
    and on nothing else: tombstones stay nil, no key appears or disappears,
    and no other field of the session changes. *)
Theorem closeStreamsWithError_registers_on_every_live_stream s err :
  let s' := state_of (closeStreamsWithError err s) in
  closeStreamsWithError err s = Ret tt s' /\
  s' = set_streams (fun _ => streams s') s /\
  forall k, streams s' !! k = fmap (RegisterError err) <$> streams s !! k.
Proof.
  cbv zeta. split; [done|]. split; [done|]. intros k.
  unfold closeStreamsWithError, modify. simpl.
  apply range_streams_lookup. intros i v m' Hi.
  destruct v as [str|]; simpl; [done|]. by rewrite insert_id.
Qed.

Lemma gc_entry_idempotent (v : option stream) : gc_entry (gc_entry v) = gc_entry v.
Proof.
  destruct v as [str|]; simpl; [|done].
  destruct (finishedReading str) eqn:Hfin; simpl; [done|]. by rewrite Hfin.
Qed.

(** X5. After [garbageCollectStreams] no live stream of the table has
    finished reading, and collecting again changes nothing. *)
Theorem garbageCollectStreams_idempotent s :
  let s' := state_of (garbageCollectStreams s) in
  (forall k str, streams s' !! k = Some (Some str) -> finishedReading str = false) /\
  state_of (garbageCollectStreams s') = s'.
Proof.
  cbv zeta. split.
  - intros k str. destruct (garbageCollectStreams_eq s k) as [_ ->].
    destruct (streams s !! k) as [[str0|]|]; simpl; try done.
    destruct (finishedReading str0) eqn:Hfin; [done|]. by intros [= <-].
  - assert (streams (state_of (garbageCollectStreams
                       (state_of (garbageCollectStreams s))))
            = streams (state_of (garbageCollectStreams s))) as Heq.
    { apply map_eq. intros k.
      destruct (garbageCollectStreams_eq (state_of (garbageCollectStreams s)) k)
        as [_ ->].
      destruct (garbageCollectStreams_eq s k) as [_ ->].
      destruct (streams s !! k) as [v|]; simpl; [|done].
      by rewrite gc_entry_idempotent. }
    revert Heq. unfold garbageCollectStreams, modify. simpl.
    unfold set_streams. simpl. by intros ->.
Qed.

(** X6. [handleRstStreamFrame] never panics and returns nil or
    [errRstStreamOnInvalidStream] only: on a live stream it registers an
    error on that stream and touches nothing else; on an absent or
    tombstoned id it leaves the session as it is, and the error it returns
    is one that [Run] logs without closing the session. *)
Theorem handleRstStreamFrame_unknown_stream_is_soft s frame :
  let id := rsf_StreamID frame in
  (forall str, streams s !! id = Some (Some str) ->
     exists e,
       handleRstStreamFrame frame s =
         Ret None (set_streams (insert id (Some (RegisterError e str))) s)) /\
  ((forall str, streams s !! id <> Some (Some str)) ->
     handleRstStreamFrame frame s = Ret (Some errRstStreamOnInvalidStream) s /\
     closed (state_of (Run_disposeError (Some errRstStreamOnInvalidStream) s))
       = closed s).
Proof.
  cbv zeta. unfold handleRstStreamFrame. unfold_M. simpl. split.
  - intros str ->. by eexists.
  - intros Hno. split; [|done].
    destruct (streams s !! rsf_StreamID frame) as [[str|]|]; [|done..].
    by destruct (Hno str).
Qed.

(** X7. A STREAM frame for a stream that is live in the table is appended
    to it whatever the parity of its id (the validity check guards the
    creation of a stream only), and the stream callback is not called: only
    that slot of the table changes, and the result is that of
    [AddStreamFrame]. *)
Theorem handleStreamFrame_live_stream s frame str :
  streams s !! sf_StreamID frame = Some (Some str) ->
  handleStreamFrame frame s =
    Ret (stream_AddStreamFrame frame str).1
      (set_streams (insert (sf_StreamID frame)
                      (Some (stream_AddStreamFrame frame str).2)) s).
Proof.
  intros Hid. unfold handleStreamFrame. unfold_M. simpl. rewrite Hid.
  by destruct (stream_AddStreamFrame frame str) as [[e|] str'].
Qed.

(** X8. [NewStream] on an id that holds a live stream returns an error and
    leaves the session, the live stream included, as it is. *)
Theorem NewStream_live_id_is_refused s id str :
  streams s !! id = Some (Some str) ->
  exists e, NewStream id s = Ret (inl e) s.
Proof.
  intros Hid. unfold NewStream. unfold_M. simpl. rewrite Hid. simpl.
  destruct (newStream (world s) id); by eexists.
Qed.

(** X9. A new session holds the crypto stream 1 and nothing else, is open,
    and has made no call yet; a STREAM frame for stream 1 is appended to
    that stream without the stream callback. *)
Theorem NewSession_has_crypto_stream (w : W) (cid : ConnectionID) str frame :
  newStream w 1 = inr str ->
  sf_StreamID frame = 1 ->
  let s := NewSession w cid in
  streams s = {[ 1 := Some str ]} /\
  closed s = false /\ closeChan s = 0%nat /\ receivedPackets s = [] /\
  sendingScheduled s = false /\ trace s = [] /\ connectionID s = cid /\
  trace (state_of (handleStreamFrame frame s)) = [] /\
  returned (handleStreamFrame frame s) = Some (stream_AddStreamFrame frame str).1.
Proof.
  intros Hnew Hid. cbv zeta.
  assert (NewSession w cid =
            mkSession cid {[ 1 := Some str ]} w [] false 0%nat false 0 []) as ->.
  { unfold NewSession, NewStream. unfold_M. simpl. rewrite Hnew, lookup_empty.
    simpl. unfold set_streams. simpl. by rewrite insert_empty. }
  simpl. repeat split; try done.
  - unfold handleStreamFrame. unfold_M. simpl. rewrite Hid, lookup_singleton_eq.
    by destruct (stream_AddStreamFrame frame str) as [[e|] str'].
  - unfold handleStreamFrame. unfold_M. simpl. rewrite Hid, lookup_singleton_eq.
    by destruct (stream_AddStreamFrame frame str) as [[e|] str'].
Qed.

(** ** Closing and the event loop *)

Lemma Close_sets_closed s e sendConnectionClose :
  closed (state_of (Close e sendConnectionClose s)) = true.
Proof.
  unfold Close, send_closeChan, sendPublicReset, closeStreamsWithError. unfold_M.
  simpl. destruct (closed s) eqn:Hclosed; simpl; [done|]. exec; done.
Qed.

Lemma Close_keeps_signals s e sendConnectionClose :
  sendingScheduled (state_of (Close e sendConnectionClose s)) = sendingScheduled s /\
  receivedPackets (state_of (Close e sendConnectionClose s)) = receivedPackets s.
Proof.
  unfold Close, send_closeChan, sendPublicReset, closeStreamsWithError. unfold_M.
  simpl. exec; done.
Qed.

Lemma Close_open_closeChan s e sendConnectionClose :
  closed s = false -> closeChan s = 0%nat ->
  closeChan (state_of (Close e sendConnectionClose s)) = 1%nat.
Proof.
  intros Hclosed Hchan.
  unfold Close, send_closeChan, sendPublicReset, closeStreamsWithError. unfold_M.
  simpl. rewrite Hclosed. simpl. rewrite Hchan. simpl. exec; done.
Qed.

(** X10. In every session history [Close] never blocks on the close
    channel: it returns, or panics with the packer's missing packet; and it
    always leaves the session closed. *)
Theorem Close_never_blocks s e sendConnectionClose :
  reachable s ->
  let s' := state_of (Close e sendConnectionClose s) in
  ((exists res, Close e sendConnectionClose s = Ret res s') \/
   Close e sendConnectionClose s = Panic PanicExpectedPacketNotNil s') /\
  closed s' = true.
Proof.
  intros Hreach. cbv zeta. split; [|apply Close_sets_closed].
  destruct (closed s) eqn:Hclosed.
  - left. exists None. by rewrite Close_closed.
  - pose proof (reachable_closeChan_ok s Hreach Hclosed) as Hchan.
    unfold Close, send_closeChan, sendPublicReset, closeStreamsWithError. unfold_M.
    simpl. rewrite Hclosed. simpl. rewrite Hchan. simpl.
    exec; first [left; by eexists | by right].
Qed.

(** X11. [Close(e, true)] on an open session, for an error whose code is
    not [QUIC_DECRYPTION_FAILURE] (nil counts as a [QuicError] of code
    [QUIC_PEER_GOING_AWAY]; an error that is no [QuicError] has code 1):
    the error is registered on every live stream, the packer is asked once,
    without stream data, for a packet of the single CONNECTION_CLOSE frame
    that carries the code and [e.Error()]; the packer's error is returned
    with nothing written, a nil packet with a nil error is a panic, and
    otherwise the packet's raw bytes are written and the result of the
    write is returned. *)
Theorem Close_sends_connection_close s e :
  reachable s ->
  closed s = false ->
  let e' := match e with
            | None => QuicError QUIC_PEER_GOING_AWAY "peer going away"
            | Some e0 => e0
            end in
  errorCode_of e' <> QUIC_DECRYPTION_FAILURE ->
  let frames :=
    [FConnectionClose (mkConnectionCloseFrame (errorCode_of e') (error_Error e'))] in
  let packed := PackPacket None frames false (world s) in
  let s1 := state_of (Close e true s) in
  let before_write :=
    [EvCloseCallback (connectionID s);
     EvLog LevelError (LogClosingSession e');
     EvPackPacket None frames false packed.1] in
  (forall k, streams s1 !! k = fmap (RegisterError e') <$> streams s !! k) /\
  match packed.1 with
  | (_, Some err) =>
      Close e true s = Ret (Some err) s1 /\ new_events s s1 = before_write
  | (None, None) =>
      Close e true s = Panic PanicExpectedPacketNotNil s1 /\
      new_events s s1 = before_write
  | (Some packet, None) =>
      let written := conn_write (pp_raw packet) packed.2 in
      Close e true s = Ret written.1 s1 /\
      new_events s s1 = before_write ++ [EvWrite (pp_raw packet) written.1]
  end.
Proof.
  intros Hreach Hclosed. cbv zeta. intros Hcode.
  pose proof (reachable_closeChan_ok s Hreach Hclosed) as Hchan.
  apply N.eqb_neq in Hcode.
  unfold Close, send_closeChan, sendPublicReset, closeStreamsWithError. unfold_M.
  simpl. rewrite Hclosed. simpl. rewrite Hchan. simpl. rewrite Hcode. simpl.
  assert (forall k,
            range_streams
              (fun k0 v m0 =>
                 match v with
                 | Some str =>
                     <[k0 := Some (RegisterError
                        match e with
                        | Some e0 => e0
                        | None => QuicError QUIC_PEER_GOING_AWAY "peer going away"
                        end str)]> m0
                 | None => m0
                 end) (streams s) !! k
            = fmap (RegisterError
                      match e with
                      | Some e0 => e0
                      | None => QuicError QUIC_PEER_GOING_AWAY "peer going away"
                      end) <$> streams s !! k) as Htable.
  { intros k. apply range_streams_lookup. intros i v m' Hi.
    destruct v as [str|]; simpl; [done|]. by rewrite insert_id. }
  destruct (PackPacket _ _ _ _) as [[[packet|] [err|]] w']; simpl;
    try (split; [exact Htable|]; split; [done|]; by new_events_norm).
  destruct (conn_write _ _) as [res w'']. simpl.
  split; [exact Htable|]. split; [done|]. by new_events_norm.
Qed.

(** X12. The peer's CONNECTION_CLOSE frame, on an open session: the session
    is closed, the close signal is raised and the close callback is called,
    and nothing is packed or written; the frame's handler returns nil, so
    the frames that follow in the packet are still handled. *)
Theorem handleFrame_ConnectionClose_closes_silently s frame :
  reachable s ->
  closed s = false ->
  handleFrame (FConnectionClose frame) s =
    Ret None
      (log_events [EvLog LevelDebug (LogReceivedFrame (FConnectionClose frame));
                   EvCloseCallback (connectionID s)]
         (set_closeChan 1 (set_closed true s))).
Proof.
  intros Hreach Hclosed.
  pose proof (reachable_closeChan_ok s Hreach Hclosed) as Hchan.
  unfold handleFrame, Close, send_closeChan. unfold_M. simpl.
  rewrite Hclosed. simpl. rewrite Hchan. simpl.
  unfold log_events, log_event, set_closeChan, set_closed. simpl.
  by rewrite <- app_assoc.
Qed.

(** X13. After [Close] on an open session the next iteration of [Run]
    returns from the loop, whatever else is ready: it consumes the close
    signal and handles nothing, so the packets still queued stay queued. *)
Theorem Run_returns_after_Close s e sendConnectionClose c :
  reachable s ->
  closed s = false ->
  let s1 := state_of (Close e sendConnectionClose s) in
  Run_iteration c s1 = Some (Ret LoopReturn (set_closeChan 0 s1)) /\
  receivedPackets s1 = receivedPackets s.
Proof.
  intros Hreach Hclosed. cbv zeta.
  pose proof (reachable_closeChan_ok s Hreach Hclosed) as Hchan.
  split; [|apply Close_keeps_signals].
  unfold Run_iteration.
  by rewrite (Close_open_closeChan s e sendConnectionClose Hclosed Hchan).
Qed.

(** X14. The idle timer, on an open session: the iteration closes the
    session, and, the idle-timeout code not being that of a decryption
    failure, asks the packer for a CONNECTION_CLOSE frame with code
    [QUIC_NETWORK_IDLE_TIMEOUT]. *)
Theorem Run_idle_timeout_closes s :
  reachable s ->
  closed s = false ->
  exists o,
    Run_iteration caseTimeAfter s = Some o /\
    closed (state_of o) = true /\
    (QUIC_NETWORK_IDLE_TIMEOUT <> QUIC_DECRYPTION_FAILURE ->
     exists res,
       EvPackPacket None
         [FConnectionClose
            (mkConnectionCloseFrame QUIC_NETWORK_IDLE_TIMEOUT
               (error_Error idleTimeoutError))] false res
       ∈ new_events s (state_of o)).
Proof.
  intros Hreach Hclosed.
  pose proof (reachable_closeChan_ok s Hreach Hclosed) as Hchan.
  unfold Run_iteration. rewrite Hchan. eexists. split; [reflexivity|].
  unfold Close, send_closeChan, sendPublicReset, closeStreamsWithError,
    garbageCollectStreams, Run_disposeError, idleTimeoutError. unfold_M.
  simpl. rewrite Hclosed. simpl. rewrite Hchan. simpl.
  destruct (QUIC_NETWORK_IDLE_TIMEOUT =? QUIC_DECRYPTION_FAILURE) eqn:Hcode; simpl.
  - destruct (conn_write _ _) as [res w']. simpl. split; [done|].
    intros Hne. by apply N.eqb_eq in Hcode.
  - destruct (PackPacket _ _ _ _) as [[[packet|] [err|]] w']; simpl;
      try (split; [done|]; intros _; eexists; new_events_norm;
           do 2 apply list_elem_of_further; apply list_elem_of_here).
    destruct (conn_write _ _) as [res w'']. simpl. split; [done|].
    intros _. eexists. new_events_norm.
    do 2 apply list_elem_of_further. apply list_elem_of_here.
Qed.

(** X15. An iteration of [Run], whatever it handles and however it ends,
    turns no tombstone into a stream again and never reopens a closed
    session. *)
Theorem Run_iteration_keeps_tombstones_and_closed s c o :
  Run_iteration c s = Some o ->
  (forall k, tombstoned k s -> tombstoned k (state_of o)) /\
  (closed s = true -> closed (state_of o) = true).
Proof.
  intros Hrun. destruct (Run_iteration_evolves s c o Hrun) as (Htomb & _ & Hcl).
  by split.
Qed.

Lemma Run_finish_closes s e :
  e <> ErrDuplicateOrOutOfOrderAck ->
  e <> errRstStreamOnInvalidStream ->
  closed (state_of ((Run_disposeError (Some e);; garbageCollectStreams;;
                     mret LoopContinue) s)) = true.
Proof.
  intros Hdup Hrst.
  assert (Run_disposeError (Some e) s = (Close (Some e) true;; mret tt) s) as Hd
    by (by destruct e).
  pose proof (Close_sets_closed s (Some e) true) as Hclosed.
  unfold mbind at 1, M_bind at 1. rewrite Hd.
  unfold garbageCollectStreams. unfold_M.
  destruct (Close (Some e) true s) as [res s'| |]; simpl in *; done.
Qed.

(** X16. An error returned by the handler of an iteration, other than
    [ErrDuplicateOrOutOfOrderAck] and [errRstStreamOnInvalidStream], leaves
    the session closed at the end of the iteration: so do
    [errInvalidStreamID], [errReopeningStreamsNotAllowed] and
    [errWindowUpdateOnInvalidStream] from a packet, and any error of
    [sendPacket]. *)
Theorem Run_iteration_closes_on_handler_error s e s2 :
  closeChan s = 0%nat ->
  e <> ErrDuplicateOrOutOfOrderAck ->
  e <> errRstStreamOnInvalidStream ->
  (sendingScheduled s = true ->
   sendPacket (set_sendingScheduled false s) = Ret (Some e) s2 ->
   exists o, Run_iteration caseSendingScheduled s = Some o /\
             closed (state_of o) = true) /\
  (forall p q,
     receivedPackets s = p :: q ->
     handlePacket (remoteAddr p) (publicHeader p) (r p) (set_receivedPackets q s)
       = Ret (Some e) s2 ->
     exists o, Run_iteration caseReceivedPackets s = Some o /\
               closed (state_of o) = true).
Proof.
  intros Hchan Hdup Hrst. split.
  - intros Hsched Hsend. rewrite (Run_iteration_sendingScheduled s Hchan Hsched).
    eexists. split; [reflexivity|].
    unfold mbind at 1, M_bind at 1. rewrite Hsend. by apply Run_finish_closes.
  - intros p q Hq Hhandle. rewrite (Run_iteration_receivedPackets s p q Hchan Hq).
    eexists. split; [reflexivity|].
    unfold mbind at 1, M_bind at 1. unfold mbind at 1, M_bind at 1.
    rewrite Hhandle. unfold scheduleSending. unfold_M. simpl.
    destruct (sendingScheduled s2); by apply Run_finish_closes.
Qed.

(** ** Packets and their frames *)

Lemma session_eq s1 s2 :
  connectionID s1 = connectionID s2 ->
  streams s1 = streams s2 ->
  world s1 = world s2 ->
  receivedPackets s1 = receivedPackets s2 ->
  sendingScheduled s1 = sendingScheduled s2 ->
  closeChan s1 = closeChan s2 ->
  closed s1 = closed s2 ->
  lastRcvdPacketNumber s1 = lastRcvdPacketNumber s2 ->
  trace s1 = trace s2 ->
  s1 = s2.
Proof. destruct s1, s2. simpl. by intros -> -> -> -> -> -> -> -> ->. Qed.

Lemma handleFrames_app fs1 fs2 s s1 :
  handleFrames fs1 s = Ret None s1 ->
  handleFrames (fs1 ++ fs2) s = handleFrames fs2 s1.
Proof.
  revert s. induction fs1 as [|ff fs1 IH]; intros s; simpl.
  - by intros [= ->].
  - unfold mbind, M_bind.
    destruct (handleFrame ff s) as [[e|] s'| |]; simpl; try done. apply IH.
Qed.

(** X17. The frames of a packet are handled in wire order, each on the
    session the one before left: once a prefix has been handled without
    error, the rest is handled from there; the first error ends the packet,
    the frames after it being left unhandled; and a frame of a type the
    switch does not know panics at its place in the packet. *)
Theorem handleFrames_in_wire_order fs1 s s1 :
  handleFrames fs1 s = Ret None s1 ->
  (forall fs2, handleFrames (fs1 ++ fs2) s = handleFrames fs2 s1) /\
  (forall ff fs2 e s2,
     handleFrame ff s1 = Ret (Some e) s2 ->
     handleFrames (fs1 ++ ff :: fs2) s = Ret (Some e) s2) /\
  (forall fs2,
     handleFrames (fs1 ++ OtherFrame :: fs2) s = Panic PanicUnexpectedFrameType s1).
Proof.
  intros Hprefix. split; [|split].
  - intros fs2. by apply handleFrames_app.
  - intros ff fs2 e s2 Hff. rewrite (handleFrames_app _ _ _ _ Hprefix). simpl.
    unfold mbind, M_bind. by rewrite Hff.
  - intros fs2. by rewrite (handleFrames_app _ _ _ _ Hprefix).
Qed.

Lemma handleFrames_log_only fs s :
  forallb isPingOrBlocked fs = true ->
  handleFrames fs s = Ret None (log_events (map (logOnlyEvent (connectionID s)) fs) s).
Proof.
  revert s. induction fs as [|ff fs IH]; intros s; simpl.
  - by rewrite log_events_nil.
  - intros [Hff Hfs]%andb_prop. destruct ff; try discriminate; simpl;
      unfold_M; simpl; rewrite (IH _ Hfs); unfold log_events, log_event; simpl;
      by rewrite <- app_assoc.
Qed.

(** X18. A packet that unpacks to PING and BLOCKED frames only: its number
    becomes the last received one, the connection gets the remote address,
    the packet is registered with the receive-ack engine, each frame is
    logged, and nil is returned; the stream table, the closed flag and the
    channels are untouched. *)
Theorem handlePacket_log_only_packet s remoteAddr publicHeader r packet :
  let pn := InferPacketNumber (ph_PacketNumberLen publicHeader)
              (lastRcvdPacketNumber s) (ph_PacketNumber publicHeader) in
  let hdr := mkPublicHeader (ph_Raw publicHeader) (ph_ConnectionID publicHeader)
               (ph_PacketNumberLen publicHeader) pn in
  let unpacked := Unpack (ph_Raw hdr) hdr r
                    (conn_setCurrentRemoteAddr remoteAddr (world s)) in
  unpacked.1 = inr packet ->
  forallb isPingOrBlocked (up_frames packet) = true ->
  handlePacket remoteAddr publicHeader r s =
    Ret None
      (log_events
         ([EvLog LevelDebug
             (LogReadingPacket pn (N.of_nat (length r)) (ph_ConnectionID publicHeader));
           EvSetCurrentRemoteAddr remoteAddr;
           EvUnpack hdr r (inr packet);
           EvReceivedPacket pn (up_entropyBit packet)]
          ++ map (logOnlyEvent (connectionID s)) (up_frames packet))
         (set_world (ReceivedPacket pn (up_entropyBit packet) unpacked.2)
            (set_lastRcvdPacketNumber pn s))).
Proof.
  cbv zeta. intros Hunpack Hframes.
  unfold handlePacket. unfold_M. simpl.
  destruct (Unpack _ _ _ _) as [res w2]. simpl in *. subst res. simpl.
  rewrite (handleFrames_log_only _ _ Hframes).
  f_equal. apply session_eq; simpl; try reflexivity.
  by rewrite <- !app_assoc.
Qed.

(** X19. [handleWindowUpdateFrame] where the table holds no tombstone for
    the frame's stream: id 0 is accepted with no effect; an absent id gives
    [errWindowUpdateOnInvalidStream] with no effect; on a live stream the
    window update is applied to that stream, nothing else changes, and nil
    is returned. *)
Theorem handleWindowUpdateFrame_without_tombstone s frame :
  let id := wuf_StreamID frame in
  (id = 0 -> handleWindowUpdateFrame frame s = Ret None s) /\
  (id <> 0 -> streams s !! id = None ->
   handleWindowUpdateFrame frame s = Ret (Some errWindowUpdateOnInvalidStream) s) /\
  (forall str, id <> 0 -> streams s !! id = Some (Some str) ->
   handleWindowUpdateFrame frame s =
     Ret None (set_streams (insert id
                 (Some (UpdateFlowControlWindow (wuf_ByteOffset frame) str))) s)).
Proof.
  cbv zeta. split; [|split].
  - apply handleWindowUpdateFrame_connection_level.
  - apply handleWindowUpdateFrame_absent.
  - intros str. apply handleWindowUpdateFrame_live.
Qed.

(** X20. [handleAckFrame]: when loss recovery refuses the ACK, its error is
    returned and neither the RTT statistics nor the congestion controller is
    called; otherwise the RTT statistics get the sample with the frame's
    delay, and then the congestion controller gets one congestion event,
    with [rttUpdated = true] and the acked and the lost packets, number and
    length, in the order loss recovery gave them. *)
Theorem handleAckFrame_calls s frame :
  let s' := state_of (handleAckFrame frame s) in
  let '(duration, acked, lost, err) := (ReceivedAck frame (world s)).1 in
  streams s' = streams s /\ closed s' = closed s /\
  match err with
  | Some e =>
      handleAckFrame frame s = Ret (Some e) s' /\
      new_events s s' = [EvReceivedAck frame (duration, acked, lost, Some e)]
  | None =>
      handleAckFrame frame s = Ret None s' /\
      exists t bif rtt,
        new_events s s' =
          [EvReceivedAck frame (duration, acked, lost, None);
           EvUpdateRTT duration (ack_DelayTime frame) t;
           EvOnCongestionEvent true bif (map toPacketInfo acked) (map toPacketInfo lost);
           EvLog LevelDebug (LogReceivedFrame (FAck frame));
           EvLog LevelDebug (LogEstimatedRTT rtt)]
  end.
Proof.
  cbv zeta. unfold handleAckFrame. unfold_M. simpl.
  destruct (ReceivedAck frame (world s)) as [[[[duration acked] lost] [e|]] w1];
    simpl.
  - repeat split; try done. by new_events_norm.
  - destruct (time_Now w1) as [t w2]. simpl.
    repeat split; try done. eexists _, _, _. by new_events_norm.
Qed.

Lemma Run_disposeError_keeps_sendingScheduled s err :
  sendingScheduled (state_of (Run_disposeError err s)) = sendingScheduled s.
Proof.
  assert (forall e, sendingScheduled
                      (state_of ((Close (Some e) true;; mret tt) s))
                    = sendingScheduled s) as Hclose.
  { intros e. pose proof (Close_keeps_signals s (Some e) true) as [Hs _].
    unfold_M. by destruct (Close (Some e) true s). }
  destruct err as [[]|]; simpl; try apply Hclose; done.
Qed.

(** X21. An iteration of [Run] that handles a packet and goes on leaves the
    send signal pending, whatever the packet held and whatever became of the
    handler's error. *)
Theorem Run_ingress_schedules_sending s s' :
  Run_iteration caseReceivedPackets s = Some (Ret LoopContinue s') ->
  sendingScheduled s' = true.
Proof.
  unfold Run_iteration. destruct (closeChan s); [|done].
  destruct (receivedPackets s) as [|p q]; [done|].
  intros [= Hrun]. revert Hrun.
  unfold scheduleSending, garbageCollectStreams. unfold_M.
  destruct (handlePacket _ _ _ _) as [err s2| |]; [|done..].
  destruct (sendingScheduled s2) eqn:Hs2; simpl.
  - pose proof (Run_disposeError_keeps_sendingScheduled s2 err) as Hkeep.
    destruct (Run_disposeError err s2) as [[] s4| |]; [|done..].
    simpl in Hkeep. intros [= <-]. simpl. congruence.
  - pose proof (Run_disposeError_keeps_sendingScheduled
                  (set_sendingScheduled true s2) err) as Hkeep.
    destruct (Run_disposeError err (set_sendingScheduled true s2))
      as [[] s4| |]; [|done..].
    simpl in Hkeep. intros [= <-]. simpl. congruence.
Qed.

(** ** The ingress queue and the send signal *)

Lemma steady_refl s : steady s s.
Proof. by split. Qed.

Lemma steady_trans s1 s2 s3 : steady s1 s2 -> steady s2 s3 -> steady s1 s3.
Proof. intros [Ha Hb] [Hc Hd]. split; congruence. Qed.

Lemma steady_bind {A B : Type} (m : M A) (f : A -> M B) s :
  steady s (state_of (m s)) ->
  (forall a s', m s = Ret a s' -> steady s' (state_of (f a s'))) ->
  steady s (state_of ((m ≫= f) s)).
Proof.
  intros Hm Hf. unfold mbind, M_bind.
  destruct (m s) as [a s'| |] eqn:Hms; simpl in *; [|done..].
  eapply steady_trans; [exact Hm|]. by apply Hf.
Qed.

Lemma Close_steady s e sendConnectionClose :
  steady s (state_of (Close e sendConnectionClose s)).
Proof.
  unfold Close, send_closeChan, sendPublicReset, closeStreamsWithError. unfold_M.
  simpl. exec; by split.
Qed.

Lemma handleFrame_steady s ff : steady s (state_of (handleFrame ff s)).
Proof.
  destruct ff; simpl.
  - unfold handleStreamFrame, NewStream. unfold_M. exec; by split.
  - unfold handleAckFrame. unfold_M. exec; by split.
  - apply steady_bind; [by split|]. intros [] s' [= <-].
    apply steady_bind; [|intros; apply steady_refl].
    eapply steady_trans; [|apply Close_steady]. by split.
  - unfold_M. exec; by split.
  - unfold handleRstStreamFrame. unfold_M. exec; by split.
  - unfold handleWindowUpdateFrame. unfold_M. exec; by split.
  - unfold_M. by split.
  - unfold_M. by split.
  - apply steady_refl.
Qed.

Lemma handleFrames_steady fs s : steady s (state_of (handleFrames fs s)).
Proof.
  revert s. induction fs as [|ff fs IH]; intros s; simpl; [apply steady_refl|].
  apply steady_bind; [apply handleFrame_steady|].
  intros [e|] s' _; [apply steady_refl|apply IH].
Qed.

Lemma handlePacket_steady s a hdr payload :
  steady s (state_of (handlePacket a hdr payload s)).
Proof.
  unfold handlePacket. unfold_M. simpl.
  destruct (Unpack _ _ _ _) as [[e|packet] w']; simpl.
  - by destruct (isDecryptionFailure e).
  - eapply steady_trans; [|apply handleFrames_steady]. by split.
Qed.

Lemma sendPacket_steady s : steady s (state_of (sendPacket s)).
Proof.
  unfold sendPacket, congestionAllowsSending, scheduleSending. unfold_M.
  exec; by split.
Qed.

Lemma Run_disposeError_steady s err :
  steady s (state_of (Run_disposeError err s)).
Proof.
  destruct err as [[]|]; simpl;
    try (apply steady_bind; [apply Close_steady|intros; apply steady_refl]);
    try apply steady_refl.
  unfold_M. by split.
Qed.

Lemma Run_iteration_queue s c o :
  Run_iteration c s = Some o ->
  connectionID (state_of o) = connectionID s /\
  (receivedPackets (state_of o) = receivedPackets s \/
   exists p, receivedPackets s = p :: receivedPackets (state_of o)).
Proof.
  assert (forall (handler : M (option error)) s0,
            steady s0 (state_of (handler s0)) ->
            steady s0 (state_of
              ((err ← handler; Run_disposeError err;; garbageCollectStreams;;
                mret LoopContinue) s0))) as Hfinish.
  { intros handler s0 Hh. apply steady_bind; [done|]. intros err s1 _.
    apply steady_bind; [apply Run_disposeError_steady|]. intros [] s2 _.
    apply steady_bind; [by split|]. intros; apply steady_refl. }
  unfold Run_iteration. destruct (closeChan s) as [|n].
  - destruct c; [done|..].
    + destruct (receivedPackets s) as [|p q] eqn:Hq; [done|]. intros [= <-].
      destruct (Hfinish
                  (err ← handlePacket (remoteAddr p) (publicHeader p) (r p);
                   scheduleSending;; mret err) (set_receivedPackets q s))
        as [Hid Hqueue].
      * apply steady_bind; [apply handlePacket_steady|]. intros err s1 _.
        unfold scheduleSending. unfold_M. exec; by split.
      * split; [exact Hid|]. right. exists p. by rewrite Hqueue.
    + destruct (sendingScheduled s); [|done]. intros [= <-].
      destruct (Hfinish sendPacket (set_sendingScheduled false s)
                  (sendPacket_steady _)) as [Hid Hqueue].
      split; [exact Hid|]. by left.
    + intros [= <-].
      destruct (Hfinish (Close (Some idleTimeoutError) true;; mret None) s)
        as [Hid Hqueue]; [|split; [exact Hid|by left]].
      apply steady_bind; [apply Close_steady|intros; apply steady_refl].
  - intros [= <-]. simpl. split; [done|by left].
Qed.

(** X22. In every session history the ingress queue holds at most 1000
    packets: [HandlePacket] adds one only when fewer are queued, and blocks
    otherwise; an iteration of [Run] takes the head of the queue or leaves
    the queue alone; no other method touches it. *)
Theorem reachable_ingress_queue_bounded s :
  reachable s -> (length (receivedPackets s) <= 1000)%nat.
Proof.
  induction 1 as [w cid|s c o _ IH Hrun|s a hdr payload _ IH|s e b _ IH
                 |s frame _ IH|s id _ IH|s id f _ IH].
  - unfold NewSession, NewStream. unfold_M. exec; simpl; lia.
  - destruct (Run_iteration_queue s c o Hrun) as [_ [->|[p Hp]]]; [done|].
    rewrite Hp in IH. simpl in IH. lia.
  - unfold HandlePacket. unfold_M. simpl.
    destruct (decide _) as [Hlt|]; simpl; [|done].
    rewrite length_app. simpl. lia.
  - by destruct (Close_steady s e b) as [_ ->].
  - unfold QueueStreamFrame, scheduleSending. unfold_M. exec; done.
  - unfold NewStream. unfold_M. exec; done.
  - exact IH.
Qed.

Lemma QueueStreamFrame_effect frame s :
  QueueStreamFrame frame s = Ret None (state_of (QueueStreamFrame frame s)) /\
  world (state_of (QueueStreamFrame frame s)) = AddStreamFrame frame (world s) /\
  sendingScheduled (state_of (QueueStreamFrame frame s)) = true /\
  closeChan (state_of (QueueStreamFrame frame s)) = closeChan s /\
  trace (state_of (QueueStreamFrame frame s)) = trace s ++ [EvAddStreamFrame frame].
Proof.
  unfold QueueStreamFrame, scheduleSending. unfold_M. simpl.
  by destruct (sendingScheduled s) eqn:Hs.
Qed.

(** X23. [QueueStreamFrame] always returns nil; it hands the frame to the
    packer and leaves the send signal pending, so that the send case of
    [Run] is ready; two calls in a row leave one pending signal and both
    frames with the packer, in the order of the calls. *)
Theorem QueueStreamFrame_schedules_sending s frame1 frame2 :
  let s1 := state_of (QueueStreamFrame frame1 s) in
  let s2 := state_of (QueueStreamFrame frame2 s1) in
  QueueStreamFrame frame1 s = Ret None s1 /\
  world s1 = AddStreamFrame frame1 (world s) /\
  sendingScheduled s1 = true /\
  (closeChan s = 0%nat -> is_Some (Run_iteration caseSendingScheduled s1)) /\
  QueueStreamFrame frame2 s1 = Ret None s2 /\
  world s2 = AddStreamFrame frame2 (AddStreamFrame frame1 (world s)) /\
  sendingScheduled s2 = true /\
  new_events s s2 = [EvAddStreamFrame frame1; EvAddStreamFrame frame2].
Proof.
  cbv zeta.
  destruct (QueueStreamFrame_effect frame1 s) as (Hret1 & Hw1 & Hs1 & Hc1 & Ht1).
  destruct (QueueStreamFrame_effect frame2 (state_of (QueueStreamFrame frame1 s)))
    as (Hret2 & Hw2 & Hs2 & Hc2 & Ht2).
  split; [done|]. split; [done|]. split; [done|]. split.
  - intros Hchan. unfold Run_iteration. rewrite Hc1, Hchan, Hs1. by eexists.
  - split; [done|]. split; [by rewrite Hw2, Hw1|]. split; [done|].
    unfold new_events. rewrite Ht2, Ht1, <- app_assoc. by rewrite drop_app_length.
Qed.

End SessionProofs.

(** * The session on the test doubles *)

Lemma step_reachable c (s : Session Demo.World Demo.stream) :
  reachable s -> reachable (Demo.step c s).
Proof.
  intros Hs. unfold Demo.step.
  destruct (Run_iteration c s) as [o|] eqn:Hrun; [|done].
  by apply (reachable_Run s c o).
Qed.

(** [Demo.session3] is a session of a history, and that history retires
    stream 5. *)
Lemma session3_retires_stream_5 :
  reachable Demo.session3 /\
  streams Demo.session1 !! 5 =
    Some (Some (Demo.mkStream [mkStreamFrame 5 true 0 [Byte.x61]] 16384 None true false)) /\
  tombstoned 5 Demo.session3 /\
  closed Demo.session3 = false.
Proof.
  split; [|by vm_compute].
  apply step_reachable, reachable_stream_use, step_reachable,
    reachable_HandlePacket, reachable_NewSession.
Qed.

(** C1 fails on [NewStream]: on [Demo.session3], where the loop has retired
    stream 5, [NewStream(5)] returns a stream and the slot of 5 is live
    again. *)
Theorem NewStream_recreates_tombstoned_stream :
  reachable Demo.session3 /\
  tombstoned 5 Demo.session3 /\
  returned (NewStream 5 Demo.session3) =
    Some (inr (Demo.mkStream [] 16384 None false false)) /\
  streams (state_of (NewStream 5 Demo.session3)) !! 5 =
    Some (Some (Demo.mkStream [] 16384 None false false)).
Proof.
  destruct session3_retires_stream_5 as (Hreach & _ & Htomb & _).
  split; [done|]. split; [done|].
  assert (newStream (world Demo.session3) 5 =
            inr (Demo.mkStream [] 16384 None false false)) as Hnew by reflexivity.
  destruct (NewStream_tombstoned Demo.session3 5 _ Htomb Hnew) as [Hret Hlive].
  split; [by rewrite Hret|done].
Qed.

(** C3 fails on a tombstone: on [Demo.session3] a WINDOW_UPDATE for the
    retired stream 5 makes [handleWindowUpdateFrame] panic with a nil-pointer
    dereference, and so does the iteration of [Run] that handles the peer's
    packet carrying that frame. *)
Theorem handleWindowUpdateFrame_panics_on_tombstone :
  reachable Demo.session3 /\
  tombstoned 5 Demo.session3 /\
  handleWindowUpdateFrame (mkWindowUpdateFrame 5 100) Demo.session3 =
    Panic PanicNilPointerDereference Demo.session3 /\
  exists s',
    Run_iteration caseReceivedPackets
      (state_of (HandlePacket 9 (Demo.header 2) [Byte.x03] Demo.session3)) =
    Some (Panic PanicNilPointerDereference s').
Proof.
  destruct session3_retires_stream_5 as (Hreach & _ & Htomb & _).
  split; [done|]. split; [done|]. split.
  - by apply handleWindowUpdateFrame_tombstoned.
  - eexists. vm_compute. reflexivity.
Qed.

(** C2 as stated fails: a packet that does not decrypt is discarded with a
    nil result, yet the session is not as it was: [lastRcvdPacketNumber] and
    the connection's remote address are those of the discarded packet. *)
Lemma handlePacket_decryption_failure_changes_session :
  returned (handlePacket 9 (Demo.header 3) [] Demo.session0) = Some None /\
  lastRcvdPacketNumber Demo.session0 = 0 /\
  lastRcvdPacketNumber (state_of (handlePacket 9 (Demo.header 3) [] Demo.session0)) = 3 /\
  Demo.currentRemoteAddr (world Demo.session0) = 0 /\
  Demo.currentRemoteAddr
    (world (state_of (handlePacket 9 (Demo.header 3) [] Demo.session0))) = 9 /\
  state_of (handlePacket 9 (Demo.header 3) [] Demo.session0) <> Demo.session0.
Proof.
  repeat split; try (by vm_compute).
Qed.

(** C8 as stated fails on a session that is already closed: [Close] with a
    decryption-failure error and [sendConnectionClose = true] returns nil
    at its first line, and nothing, no public reset either, is written. *)
Lemma Close_decryption_failure_on_closed_session :
  reachable Demo.closedSession /\
  closed Demo.closedSession = true /\
  Close (Some (QuicError QUIC_DECRYPTION_FAILURE "decryption failure")) true
    Demo.closedSession = Ret None Demo.closedSession /\
  Demo.written (world Demo.closedSession) = [].
Proof.
  split; [apply reachable_Close, reachable_NewSession|].
  split; [by vm_compute|]. split; [|by vm_compute].
  apply Close_closed. by vm_compute.
Qed.

Lemma handlePacket_unpack_error_witness :
  (Unpack [] (Demo.header 3) [] (conn_setCurrentRemoteAddr 9 (world Demo.session0))).1
    = inl (QuicError 12 "decryption failure") /\
  returned (handlePacket 9 (Demo.header 3) [] Demo.session0) = Some None.
Proof.
  assert ((Unpack [] (Demo.header 3) []
             (conn_setCurrentRemoteAddr 9 (world Demo.session0))).1
          = inl (QuicError 12 "decryption failure")) as Hunpack by reflexivity.
  split; [exact Hunpack|].
  pose proof (handlePacket_unpack_error Demo.session0 9 (Demo.header 3) []
                (QuicError 12 "decryption failure")) as Hthm.
  cbv zeta in Hthm.
  lazymatch type of Hthm with
  | ?P -> _ => assert P as Hpre by (vm_compute; reflexivity)
  end.
  destruct (Hthm Hpre) as [Hdiscard _].
  rewrite (Hdiscard (ex_intro _ "decryption failure"%string eq_refl)).
  reflexivity.
Defined.

Lemma sendPacket_congestion_blocked_witness :
  GetCongestionWindow (world Demo.congested) < BytesInFlight (world Demo.congested) /\
  sendPacket Demo.congested = Ret None Demo.congested.
Proof.
  assert (GetCongestionWindow (world Demo.congested)
          < BytesInFlight (world Demo.congested)) as Hlt by (by vm_compute).
  split; [exact Hlt|].
  exact (proj1 (sendPacket_congestion_blocked_is_noop Demo.congested) Hlt).
Defined.

Lemma handleStreamFrame_witness :
  streams Demo.session0 !! 3 = None /\
  N.odd 3 = true /\
  newStream (world Demo.session0) 3 = inr (Demo.mkStream [] 16384 None false false) /\
  returned (handleStreamFrame (mkStreamFrame 3 false 0 []) Demo.session0) = Some None /\
  streams Demo.session0 !! 4 = None /\
  N.even 4 = true /\
  handleStreamFrame (mkStreamFrame 4 false 0 []) Demo.session0 =
    Ret (Some errInvalidStreamID) Demo.session0.
Proof.
  assert (streams Demo.session0 !! 3 = None) as H3 by (by vm_compute).
  assert (streams Demo.session0 !! 4 = None) as H4 by (by vm_compute).
  split; [exact H3|]. split; [reflexivity|]. split; [reflexivity|]. split.
  - assert (newStream (world Demo.session0) 3 =
              inr (Demo.mkStream [] 16384 None false false)) as Hnew by reflexivity.
    rewrite (proj1 (proj2 (handleStreamFrame_by_table_entry Demo.session0
                             (mkStreamFrame 3 false 0 []))) _ H3 eq_refl Hnew).
    reflexivity.
  - split; [exact H4|]. split; [reflexivity|].
    exact (proj1 (handleStreamFrame_by_table_entry Demo.session0
                    (mkStreamFrame 4 false 0 [])) H4 eq_refl).
Defined.

Lemma Run_disposeError_witness :
  errInvalidStreamID <> ErrDuplicateOrOutOfOrderAck /\
  errInvalidStreamID <> ErrMapAccess /\
  errInvalidStreamID <> errRstStreamOnInvalidStream /\
  Run_disposeError (Some errInvalidStreamID) Demo.session0 =
    (Close (Some errInvalidStreamID) true;; mret tt) Demo.session0.
Proof.
  assert (errInvalidStreamID <> ErrDuplicateOrOutOfOrderAck) as H1 by discriminate.
  assert (errInvalidStreamID <> ErrMapAccess) as H2 by discriminate.
  assert (errInvalidStreamID <> errRstStreamOnInvalidStream) as H3 by discriminate.
  split; [exact H1|]. split; [exact H2|]. split; [exact H3|].
  exact (proj2 (proj2 (proj2 (proj2 (Run_disposeError_by_error Demo.session0))))
           errInvalidStreamID H1 H2 H3).
Defined.

Lemma Close_idempotent_witness :
  reachable Demo.session0 /\
  closed Demo.session0 = false /\
  closed (state_of (Close None false Demo.session0)) = true /\
  Close (Some ErrMapAccess) true (state_of (Close None false Demo.session0)) =
    Ret None (state_of (Close None false Demo.session0)).
Proof.
  assert (closed Demo.session0 = false) as Hopen by reflexivity.
  split; [apply reachable_NewSession|]. split; [exact Hopen|].
  pose proof (Close_idempotent Demo.session0 None false
                (reachable_NewSession _ _) Hopen)
    as (Hflag & _ & _ & Hagain).
  split; [exact Hflag|apply Hagain].
Defined.

Lemma Close_decryption_failure_witness :
  reachable Demo.session0 /\
  closed Demo.session0 = false /\
  returned (Close (Some (QuicError QUIC_DECRYPTION_FAILURE "decryption failure"))
              true Demo.session0)
    = Some None.
Proof.
  assert (closed Demo.session0 = false) as Hopen by reflexivity.
  split; [apply reachable_NewSession|]. split; [exact Hopen|].
  rewrite (proj1 (Close_decryption_failure_sends_public_reset Demo.session0
                    "decryption failure" (reachable_NewSession _ _) Hopen)).
  reflexivity.
Defined.

(** ** Instances of the further properties *)

Lemma handleStreamFrame_live_stream_witness :
  streams Demo.localStream4 !! 4 = Some (Some (Demo.mkStream [] 16384 None false false)) /\
  N.even 4 = true /\
  returned (handleStreamFrame (mkStreamFrame 4 false 0 []) Demo.localStream4) = Some None /\
  trace (state_of (handleStreamFrame (mkStreamFrame 4 false 0 []) Demo.localStream4)) = [].
Proof.
  assert (streams Demo.localStream4 !! sf_StreamID (mkStreamFrame 4 false 0 []) =
            Some (Some (Demo.mkStream [] 16384 None false false))) as Hlive
    by (by vm_compute).
  split; [exact Hlive|]. split; [reflexivity|].
  rewrite (handleStreamFrame_live_stream Demo.localStream4 _ _ Hlive).
  split; reflexivity.
Defined.

Lemma NewStream_live_id_is_refused_witness :
  streams Demo.session0 !! 1 = Some (Some (Demo.mkStream [] 16384 None false false)) /\
  exists e, NewStream 1 Demo.session0 = Ret (inl e) Demo.session0.
Proof.
  assert (streams Demo.session0 !! 1 =
            Some (Some (Demo.mkStream [] 16384 None false false))) as Hlive
    by (by vm_compute).
  split; [exact Hlive|].
  exact (NewStream_live_id_is_refused Demo.session0 1 _ Hlive).
Defined.

Lemma NewSession_has_crypto_stream_witness :
  newStream Demo.initialWorld 1 = inr (Demo.mkStream [] 16384 None false false) /\
  streams (NewSession Demo.initialWorld 4242)
    = {[ 1 := Some (Demo.mkStream [] 16384 None false false) ]}.
Proof.
  assert (newStream Demo.initialWorld 1 =
            inr (Demo.mkStream [] 16384 None false false)) as Hnew by reflexivity.
  split; [exact Hnew|].
  exact (proj1 (NewSession_has_crypto_stream Demo.initialWorld 4242 _
                  (mkStreamFrame 1 false 0 []) Hnew eq_refl)).
Defined.

Lemma Close_never_blocks_witness :
  reachable Demo.session3 /\
  closed (state_of (Close None true Demo.session3)) = true.
Proof.
  destruct session3_retires_stream_5 as (Hreach & _).
  split; [exact Hreach|].
  exact (proj2 (Close_never_blocks Demo.session3 None true Hreach)).
Defined.

Lemma Close_sends_connection_close_witness :
  reachable Demo.session0 /\
  closed Demo.session0 = false /\
  errorCode_of errInvalidStreamID <> QUIC_DECRYPTION_FAILURE /\
  streams (state_of (Close (Some errInvalidStreamID) true Demo.session0)) !! 1 =
    Some (Some (Demo.mkStream [] 16384 (Some errInvalidStreamID) false false)).
Proof.
  assert (closed Demo.session0 = false) as Hopen by reflexivity.
  assert (errorCode_of errInvalidStreamID <> QUIC_DECRYPTION_FAILURE) as Hcode
    by (by vm_compute).
  split; [apply reachable_NewSession|]. split; [exact Hopen|]. split; [exact Hcode|].
  rewrite (proj1 (Close_sends_connection_close Demo.session0
                    (Some errInvalidStreamID) (reachable_NewSession _ _) Hopen Hcode) 1).
  by vm_compute.
Defined.

Lemma handleFrame_ConnectionClose_witness :
  reachable Demo.session0 /\
  closed Demo.session0 = false /\
  returned (handleFrame (FConnectionClose (mkConnectionCloseFrame 16 "bye"))
              Demo.session0) = Some None.
Proof.
  assert (closed Demo.session0 = false) as Hopen by reflexivity.
  split; [apply reachable_NewSession|]. split; [exact Hopen|].
  by rewrite (handleFrame_ConnectionClose_closes_silently Demo.session0 _
                (reachable_NewSession _ _) Hopen).
Defined.

Lemma Run_returns_after_Close_witness :
  reachable Demo.pingQueued /\
  closed Demo.pingQueued = false /\
  Run_iteration caseReceivedPackets (state_of (Close None true Demo.pingQueued)) =
    Some (Ret LoopReturn
            (set_closeChan 0 (state_of (Close None true Demo.pingQueued)))).
Proof.
  assert (reachable Demo.pingQueued) as Hreach
    by apply reachable_HandlePacket, reachable_NewSession.
  assert (closed Demo.pingQueued = false) as Hopen by reflexivity.
  split; [exact Hreach|]. split; [exact Hopen|].
  exact (proj1 (Run_returns_after_Close Demo.pingQueued None true
                  caseReceivedPackets Hreach Hopen)).
Defined.

Lemma Run_idle_timeout_closes_witness :
  reachable Demo.session0 /\
  closed Demo.session0 = false /\
  exists o, Run_iteration caseTimeAfter Demo.session0 = Some o /\
            closed (state_of o) = true.
Proof.
  assert (closed Demo.session0 = false) as Hopen by reflexivity.
  split; [apply reachable_NewSession|]. split; [exact Hopen|].
  destruct (Run_idle_timeout_closes Demo.session0 (reachable_NewSession _ _) Hopen)
    as (o & Hrun & Hclosed & _).
  by exists o.
Defined.

Lemma Run_iteration_keeps_tombstones_witness :
  Run_iteration caseTimeAfter Demo.session3 <> None /\
  tombstoned 5 Demo.session3 /\
  tombstoned 5 (Demo.step caseTimeAfter Demo.session3).
Proof.
  assert (tombstoned 5 Demo.session3) as Htomb by (by vm_compute).
  split; [by vm_compute|]. split; [exact Htomb|].
  unfold Demo.step.
  destruct (Run_iteration caseTimeAfter Demo.session3) as [o|] eqn:Hrun;
    [|exact Htomb].
  exact (proj1 (Run_iteration_keeps_tombstones_and_closed _ _ _ Hrun) 5 Htomb).
Defined.

Lemma Run_iteration_closes_on_handler_error_witness :
  closeChan Demo.session4 = 0%nat /\
  errReopeningStreamsNotAllowed <> ErrDuplicateOrOutOfOrderAck /\
  errReopeningStreamsNotAllowed <> errRstStreamOnInvalidStream /\
  receivedPackets Demo.session4 = [mkReceivedPacket 9 (Demo.header 2) [Byte.x02]] /\
  returned (handlePacket 9 (Demo.header 2) [Byte.x02]
              (set_receivedPackets [] Demo.session4))
    = Some (Some errReopeningStreamsNotAllowed) /\
  exists o, Run_iteration caseReceivedPackets Demo.session4 = Some o /\
            closed (state_of o) = true.
Proof.
  assert (closeChan Demo.session4 = 0%nat) as Hchan by (by vm_compute).
  assert (errReopeningStreamsNotAllowed <> ErrDuplicateOrOutOfOrderAck) as Hdup
    by discriminate.
  assert (errReopeningStreamsNotAllowed <> errRstStreamOnInvalidStream) as Hrst
    by discriminate.
  assert (receivedPackets Demo.session4 =
            [mkReceivedPacket 9 (Demo.header 2) [Byte.x02]]) as Hq by (by vm_compute).
  assert (handlePacket (remoteAddr (mkReceivedPacket 9 (Demo.header 2) [Byte.x02]))
            (publicHeader (mkReceivedPacket 9 (Demo.header 2) [Byte.x02]))
            (r (mkReceivedPacket 9 (Demo.header 2) [Byte.x02]))
            (set_receivedPackets [] Demo.session4)
          = Ret (Some errReopeningStreamsNotAllowed)
              (state_of (handlePacket 9 (Demo.header 2) [Byte.x02]
                           (set_receivedPackets [] Demo.session4)))) as Hhandle
    by (by vm_compute).
  split; [exact Hchan|]. split; [exact Hdup|]. split; [exact Hrst|].
  split; [exact Hq|]. split; [by vm_compute|].
  exact (proj2 (Run_iteration_closes_on_handler_error Demo.session4
                  errReopeningStreamsNotAllowed _ Hchan Hdup Hrst)
           _ _ Hq Hhandle).
Defined.

Lemma handleFrames_in_wire_order_witness :
  handleFrames [FPing] Demo.session0 =
    Ret None (state_of (handleFrames [FPing] Demo.session0)) /\
  handleFrames ([FPing] ++ OtherFrame :: [FPing]) Demo.session0 =
    Panic PanicUnexpectedFrameType (state_of (handleFrames [FPing] Demo.session0)).
Proof.
  assert (handleFrames [FPing] Demo.session0 =
            Ret None (state_of (handleFrames [FPing] Demo.session0))) as Hprefix
    by reflexivity.
  split; [exact Hprefix|].
  exact (proj2 (proj2 (handleFrames_in_wire_order [FPing] Demo.session0 _ Hprefix))
           [FPing]).
Defined.

Lemma handlePacket_log_only_packet_witness :
  (Unpack [] (Demo.header 1) [Byte.x01]
     (conn_setCurrentRemoteAddr 9 (world Demo.session0))).1
    = inr (mkUnpackedPacket false [FPing]) /\
  forallb isPingOrBlocked (up_frames (mkUnpackedPacket false [FPing])) = true /\
  returned (handlePacket 9 (Demo.header 1) [Byte.x01] Demo.session0) = Some None.
Proof.
  assert ((Unpack [] (Demo.header 1) [Byte.x01]
             (conn_setCurrentRemoteAddr 9 (world Demo.session0))).1
          = inr (mkUnpackedPacket false [FPing])) as Hunpack by reflexivity.
  split; [exact Hunpack|]. split; [reflexivity|].
  pose proof (handlePacket_log_only_packet Demo.session0 9 (Demo.header 1)
                [Byte.x01] (mkUnpackedPacket false [FPing])) as Hthm.
  cbv zeta in Hthm.
  lazymatch type of Hthm with
  | ?P -> _ => assert P as Hpre by (vm_compute; reflexivity)
  end.
  by rewrite (Hthm Hpre eq_refl).
Defined.

Lemma Run_ingress_schedules_sending_witness :
  Run_iteration caseReceivedPackets Demo.pingQueued =
    Some (Ret LoopContinue (Demo.step caseReceivedPackets Demo.pingQueued)) /\
  sendingScheduled (Demo.step caseReceivedPackets Demo.pingQueued) = true.
Proof.
  assert (Run_iteration caseReceivedPackets Demo.pingQueued =
            Some (Ret LoopContinue (Demo.step caseReceivedPackets Demo.pingQueued)))
    as Hrun by (by vm_compute).
  split; [exact Hrun|].
  exact (Run_ingress_schedules_sending _ _ Hrun).
Defined.

Lemma reachable_ingress_queue_bounded_witness :
  reachable Demo.session4 /\
  (length (receivedPackets Demo.session4) <= 1000)%nat.
Proof.
  assert (reachable Demo.session4) as Hreach.
  { apply reachable_HandlePacket. by destruct session3_retires_stream_5. }
  split; [exact Hreach|].
  exact (reachable_ingress_queue_bounded _ Hreach).
Defined.
